(** * fetch_jobs.py: a shallow embedding and its verified properties

    The script queries a job-search API for a fixed list of searches,
    filters and normalises the listings and writes them to [jobs.json].

    - Python values that come out of the JSON response are kept dynamically
      typed ([value]); field values are the JSON scalars [null], booleans,
      integers and strings.  Numbers with a fraction or an exponent, and
      arrays or objects used as the value of a listing field, are outside
      the model.
    - A Python [str] is a [string] whose characters are the code points
      below 256; comparison of strings is comparison of code points.
    - An exception is a value of [exn]; code that may raise returns [res].
    - Printing, HTTP requests, sleeping and writing the file are recorded
      as a trace of [event]s ([io]).  Opening and writing [jobs.json] is
      taken to succeed; the two readings of the clock and the answer to
      every request are given by the [world]. *)

From Stdlib Require Import ZArith List String Ascii Bool Lia DecimalString.
From Stdlib Require Import Permutation Sorted.
Import ListNotations.

Local Open Scope string_scope.
Local Open Scope list_scope.
Local Open Scope Z_scope.

(** ** Exceptions and results *)

Inductive exn : Type :=
| HTTPError (code : Z) (reason : string)
| URLError (reason : string)
| TimeoutError
| OSError
| HTTPException
| ValueError
| TypeError
| AttributeError
| OverflowError
| SystemExit (code : Z).

Inductive res (A : Type) : Type :=
| Ok (a : A)
| Raise (e : exn).

Arguments Ok {A} a.
Arguments Raise {A} e.

Definition bind {A B : Type} (m : res A) (f : A -> res B) : res B :=
  match m with
  | Ok a => f a
  | Raise e => Raise e
  end.

Notation "x <- m ;; k" := (bind m (fun x => k))
  (at level 61, m at next level, right associativity).

(** ** Python values *)

Inductive value : Type :=
| VNone
| VBool (b : bool)
| VInt (z : Z)
| VStr (s : string).

(** [bool(v)] *)
Definition truthy (v : value) : bool :=
  match v with
  | VNone => false
  | VBool b => b
  | VInt z => negb (z =? 0)
  | VStr s => negb (s =? "")%string
  end.

(** The integer a number stands for ([bool] is a subclass of [int]). *)
Definition as_int (v : value) : option Z :=
  match v with
  | VBool b => Some (if b then 1 else 0)
  | VInt z => Some z
  | _ => None
  end.

(** [a == b] *)
Definition py_eq (a b : value) : bool :=
  match a, b with
  | VNone, VNone => true
  | VStr s, VStr t => (s =? t)%string
  | _, _ =>
    match as_int a, as_int b with
    | Some x, Some y => x =? y
    | _, _ => false
    end
  end.

(** [a < b]: defined between two strings and between two numbers. *)
Definition py_lt (a b : value) : res bool :=
  match a, b with
  | VStr s, VStr t => Ok (s <? t)%string
  | _, _ =>
    match as_int a, as_int b with
    | Some x, Some y => Ok (x <? y)
    | _, _ => Raise TypeError
    end
  end.

(** A [dict] with string keys, and [d.get(k, default)]. *)
Definition dict : Type := list (string * value).

Fixpoint get (d : dict) (k : string) (default : value) : value :=
  match d with
  | [] => default
  | (k', v) :: d' => if (k' =? k)%string then v else get d' k default
  end.

(** A [set] of hashable values: membership goes by [==]. *)
Definition pyset : Type := list value.

Definition set_mem (x : value) (s : pyset) : bool := existsb (py_eq x) s.

Definition set_add (x : value) (s : pyset) : pyset :=
  if set_mem x s then s else x :: s.

Notation "' p <- m ;; k" := (bind m (fun x => match x with p => k end))
  (at level 61, p pattern, m at next level, right associativity).

(** ** Text helpers *)

(** [s.replace(old, new)] for a one-character [old]. *)
Fixpoint replace_char (old : ascii) (new : string) (s : string) : string :=
  match s with
  | EmptyString => EmptyString
  | String c s' =>
    if Ascii.eqb c old then (new ++ replace_char old new s')%string
    else String c (replace_char old new s')
  end.

(** Decimal digits of a natural number. *)
Definition decimal (n : Z) : string :=
  NilZero.string_of_uint (N.to_uint (Z.to_N n)).

(** [str(v)] *)
Definition py_str (v : value) : string :=
  match v with
  | VNone => "None"
  | VBool true => "True"
  | VBool false => "False"
  | VInt z => if z <? 0 then ("-" ++ decimal (- z))%string else decimal z
  | VStr s => s
  end.

(** ** Formatting a number with the format spec [,.0f] *)

(** [float(z)] for an [int]: the nearest double, ties to even; the result
    is reported as the integer it equals.  Integers of at most 53 bits are
    exact. *)
Definition float_of_int (z : Z) : res Z :=
  let a := Z.abs z in
  let bits := Z.log2 a + 1 in
  if bits <=? 53 then Ok z
  else
    let sh := bits - 53 in
    let q := Z.shiftr a sh in
    let r := a - Z.shiftl q sh in
    let half := Z.shiftl 1 (sh - 1) in
    let q' := if (half <? r) || ((r =? half) && Z.odd q) then q + 1 else q in
    let v := Z.shiftl q' sh in
    if 2 ^ 1024 <=? v then Raise OverflowError else Ok (Z.sgn z * v).

(** Thousands separators: a comma after every third digit, counted from
    the right.  [group_rev] walks the reversed digits; [k] is the number of
    digits already emitted in the current group. *)
Fixpoint group_rev (l : list ascii) (k : nat) : list ascii :=
  match l with
  | [] => []
  | c :: l' =>
    match k with
    | 3%nat => ","%char :: c :: group_rev l' 1
    | _ => c :: group_rev l' (S k)
    end
  end.

Definition thousands (n : Z) : string :=
  string_of_list_ascii
    (rev (group_rev (rev (list_ascii_of_string (decimal n))) 0)).

(** Whole-number text of an integer with thousands separators. *)
Definition commas (z : Z) : string :=
  if z <? 0 then ("-" ++ thousands (- z))%string else thousands z.

(** [format(v, ",.0f")] *)
Definition format_f0 (v : value) : res string :=
  match v with
  | VNone => Raise TypeError
  | VStr _ => Raise ValueError
  | _ =>
    match as_int v with
    | Some z => f <- float_of_int z ;; Ok (commas f)
    | None => Raise TypeError
    end
  end.

(** ** Dates and times *)

Record datetime : Type := {
  year : Z; month : Z; day : Z;
  hour : Z; minute : Z; second : Z; microsecond : Z;
  (** [None] for a naive datetime, else the UTC offset in microseconds *)
  utcoffset : option Z
}.

Definition is_leap (y : Z) : bool :=
  (y mod 4 =? 0) && (negb (y mod 100 =? 0) || (y mod 400 =? 0)).

Definition days_in_month (y m : Z) : Z :=
  if m =? 2 then (if is_leap y then 29 else 28)
  else if (m =? 4) || (m =? 6) || (m =? 9) || (m =? 11) then 30
  else 31.

Definition days_before_year (y : Z) : Z :=
  let p := y - 1 in p * 365 + p / 4 - p / 100 + p / 400.

Fixpoint days_before_month_aux (y : Z) (k : nat) : Z :=
  match k with
  | O => 0
  | S k' => days_before_month_aux y k' + days_in_month y (Z.of_nat k)
  end.

Definition days_before_month (y m : Z) : Z :=
  days_before_month_aux y (Z.to_nat (m - 1)).

(** Proleptic Gregorian ordinal; 0001-01-01 is day 1. *)
Definition ymd_to_ord (y m d : Z) : Z :=
  days_before_year y + days_before_month y m + d.

Definition micros_per_second : Z := 1000000.

(** Microseconds from 0001-01-01T00:00:00 to the wall-clock reading. *)
Definition wall_micros (dt : datetime) : Z :=
  (((ymd_to_ord (year dt) (month dt) (day dt) - 1) * 86400
    + hour dt * 3600 + minute dt * 60 + second dt) * micros_per_second)
  + microsecond dt.

(** The instant of an aware datetime, in microseconds of UTC. *)
Definition utc_micros (dt : datetime) : option Z :=
  match utcoffset dt with
  | None => None
  | Some off => Some (wall_micros dt - off)
  end.

(** [dt < cutoff] with [cutoff] an aware datetime given by its instant:
    comparing a naive datetime with an aware one raises [TypeError]. *)
Definition datetime_lt (dt : datetime) (cutoff : Z) : res bool :=
  match utc_micros dt with
  | None => Raise TypeError
  | Some t => Ok (t <? cutoff)
  end.

(** ** [datetime.fromisoformat]

    The library function as CPython 3.11 and later implement it (the
    parser of [Modules/_datetimemodule.c], which reads the UTF-8 bytes of
    the text up to a terminating NUL): a date [YYYY-MM-DD], [YYYYMMDD],
    [YYYY-Www[-D]] or [YYYYWww[D]]; then, after any one separating
    character, a time [HH[:MM[:SS[.f+]]]] with the colons optional and a
    comma as good as the point; then [Z] or an offset [+HH[:MM[:SS[.f+]]]].
    Every failure is a [ValueError].  (Up to Python 3.10 the function
    took [YYYY-MM-DD[*HH[:MM[:SS[.fff[fff]]]][+HH:MM[:SS[.ffffff]]]]]
    only, which is why the script rewrites ["Z"] first.) *)

Definition NUL : ascii := "000"%char.

Definition utf8_bytes (c : ascii) : list N :=
  let n := N_of_ascii c in
  if (n <? 128)%N then [n] else [192 + n / 64; 128 + n mod 64]%N.

(** The UTF-8 bytes of a text, the form in which the parser reads it. *)
Definition encode (s : string) : list ascii :=
  map ascii_of_N (flat_map utf8_bytes (list_ascii_of_string s)).

(** [*p]: the byte under the pointer, the terminating NUL at the end. *)
Definition peek (p : list ascii) : ascii := hd NUL p.

Definition digit_of (c : ascii) : option Z :=
  let n := Z.of_N (N_of_ascii c) in
  if (48 <=? n) && (n <=? 57) then Some (n - 48) else None.

Definition is_digit (c : ascii) : bool :=
  match digit_of c with
  | Some _ => true
  | None => false
  end.

Fixpoint parse_digits (n : nat) (acc : Z) (l : list ascii)
  : res (Z * list ascii) :=
  match n with
  | O => Ok (acc, l)
  | S n' =>
    match l with
    | [] => Raise ValueError
    | c :: l' =>
      match digit_of c with
      | Some d => parse_digits n' (acc * 10 + d) l'
      | None => Raise ValueError
      end
    end
  end.

Definition expect (c : ascii) (l : list ascii) : res (list ascii) :=
  match l with
  | c' :: l' => if Ascii.eqb c' c then Ok l' else Raise ValueError
  | [] => Raise ValueError
  end.

Fixpoint skip_digits (l : list ascii) : list ascii :=
  match l with
  | c :: l' => if is_digit c then skip_digits l' else l
  | [] => []
  end.

(** Where the date ends: the formats are told apart by the bytes at 4
    and 5, and by the digits after a week. *)
Definition find_isoformat_datetime_separator (dtstr : list ascii) (len : Z)
  : option Z :=
  if len =? 7 then Some 7
  else if Ascii.eqb (nth 4 dtstr NUL) "-" then
    if Ascii.eqb (nth 5 dtstr NUL) "W" then
      if len <? 8 then None
      else if (8 <? len) && Ascii.eqb (nth 8 dtstr NUL) "-" then
        if len =? 9 then None
        else if (10 <? len) && is_digit (nth 10 dtstr NUL) then Some 8
        else Some 10
      else Some 8
    else Some 10
  else if Ascii.eqb (nth 4 dtstr NUL) "W" then
    let rest := skipn 7 dtstr in
    let idx := 7 + Z.of_nat (List.length rest - List.length (skip_digits rest)) in
    if idx <? 9 then Some idx
    else if Z.even idx then Some 7 else Some 8
  else Some 8.

(** 0 for a Monday. *)
Definition weekday (y m d : Z) : Z := (ymd_to_ord y m d + 6) mod 7.

Definition iso_week1_monday (y : Z) : Z :=
  let first_day := ymd_to_ord y 1 1 in
  let first_weekday := (first_day + 6) mod 7 in
  let week1_monday := first_day - first_weekday in
  if 3 <? first_weekday then week1_monday + 7 else week1_monday.

Definition ord_to_ymd (ordinal : Z) : Z * Z * Z :=
  let o := ordinal - 1 in
  let n400 := o / 146097 in
  let n := o mod 146097 in
  let n100 := n / 36524 in
  let n := n mod 36524 in
  let n4 := n / 1461 in
  let n := n mod 1461 in
  let n1 := n / 365 in
  let n := n mod 365 in
  let y := n400 * 400 + 1 + n100 * 100 + n4 * 4 + n1 in
  if (n1 =? 4) || (n100 =? 4) then (y - 1, 12, 31)
  else
    let m := (n + 50) / 32 in
    let preceding := days_before_month y m in
    if n <? preceding
    then (y, m - 1, n - (preceding - days_in_month y (m - 1)) + 1)
    else (y, m, n - preceding + 1).

Definition iso_to_ymd (iso_year iso_week iso_day : Z) : res (Z * Z * Z) :=
  if (iso_year <? 1) || (9999 <? iso_year) then Raise ValueError
  else if ((iso_week <=? 0) || (53 <=? iso_week))
          && negb ((iso_week =? 53)
                   && ((weekday iso_year 1 1 =? 3)
                       || ((weekday iso_year 1 1 =? 2) && is_leap iso_year)))
  then Raise ValueError
  else if (iso_day <=? 0) || (8 <=? iso_day) then Raise ValueError
  else
    Ok (ord_to_ymd (iso_week1_monday iso_year
                    + (iso_week - 1) * 7 + iso_day - 1)).

(** The date in the first [len] bytes. *)
Definition parse_isoformat_date (dtstr : list ascii) (len : Z)
  : res (Z * Z * Z) :=
  '(y, p) <- parse_digits 4 0 dtstr ;;
  let uses_separator := Ascii.eqb (peek p) "-" in
  let p := if uses_separator then tl p else p in
  if Ascii.eqb (peek p) "W" then
    '(iso_week, p) <- parse_digits 2 0 (tl p) ;;
    if Z.of_nat (List.length dtstr - List.length p) <? len then
      p <- (if uses_separator then expect "-" p else Ok p) ;;
      '(iso_day, _) <- parse_digits 1 0 p ;;
      iso_to_ymd y iso_week iso_day
    else iso_to_ymd y iso_week 1
  else
    '(m, p) <- parse_digits 2 0 p ;;
    p <- (if uses_separator then expect "-" p else Ok p) ;;
    '(d, _) <- parse_digits 2 0 p ;;
    Ok (y, m, d).

(** How the loop over hours, minutes and seconds ends: by returning
    whether the text goes on, or with the pointer [p] and the [k] bytes
    left before the end of the part. *)
Inductive loop_end : Type :=
| Returned (more : bool)
| Left (p : list ascii) (k : Z).

(** [i] components are still to be read; [sep] is [None] before the first
    one, which decides whether colons are used. *)
Fixpoint parse_hh_mm_ss (i : nat) (sep : option bool) (p : list ascii)
    (k : Z) : res (list Z * loop_end) :=
  match i with
  | O => Ok ([], Left p k)
  | S i' =>
    '(v, p) <- parse_digits 2 0 p ;;
    let c := peek p in
    let has_separator :=
      match sep with
      | Some b => b
      | None => Ascii.eqb c ":"
      end in
    if k - 3 <=? 0 then Ok ([v], Returned (negb (Ascii.eqb c NUL)))
    else if has_separator && Ascii.eqb c ":" then
      '(vs, e) <- parse_hh_mm_ss i' (Some has_separator) (tl p) (k - 3) ;;
      Ok (v :: vs, e)
    else if Ascii.eqb c "." || Ascii.eqb c "," then
      Ok ([v], Left (tl p) (k - 3))
    else if negb has_separator then
      '(vs, e) <- parse_hh_mm_ss i' (Some has_separator) p (k - 2) ;;
      Ok (v :: vs, e)
    else Raise ValueError
  end.

(** [HH[:MM[:SS[.f+]]]] in the [n] bytes at [tstr], colons optional, a
    comma as good as the point; the fraction is cut after six digits.
    The boolean tells whether the text goes on after what was read. *)
Definition parse_hh_mm_ss_ff (tstr : list ascii) (n : Z)
  : res (Z * Z * Z * Z * bool) :=
  '(vs, e) <- parse_hh_mm_ss 3 None tstr n ;;
  let h := nth 0 vs 0 in
  let m := nth 1 vs 0 in
  let s := nth 2 vs 0 in
  match e with
  | Returned more => Ok (h, m, s, 0, more)
  | Left p k =>
    let to_parse := Z.to_nat (Z.min k 6) in
    '(f, p) <- parse_digits to_parse 0 p ;;
    Ok (h, m, s, f * 10 ^ (6 - Z.of_nat to_parse),
        negb (Ascii.eqb (peek (skip_digits p)) NUL))
  end.

Definition is_tz_start (c : ascii) : bool :=
  Ascii.eqb c "Z" || Ascii.eqb c "+" || Ascii.eqb c "-".

(** The bytes before the first [Z], [+] or [-]. *)
Fixpoint before_tz (l : list ascii) : nat :=
  match l with
  | c :: l' => if is_tz_start c then O else S (before_tz l')
  | [] => O
  end.

(** The time and the offset, in microseconds, in the bytes after the
    separator. *)
Definition parse_isoformat_time (p : list ascii)
  : res (Z * Z * Z * Z * option Z) :=
  let n := before_tz p in
  '(h, m, s, f, more) <- parse_hh_mm_ss_ff p (Z.of_nat n) ;;
  match skipn n p with
  | [] => if more then Raise ValueError else Ok (h, m, s, f, None)
  | c :: z =>
    if Ascii.eqb c "Z" then
      if Ascii.eqb (peek z) NUL then Ok (h, m, s, f, Some 0)
      else Raise ValueError
    else
      let tzsign := if Ascii.eqb c "-" then -1 else 1 in
      '(zh, zm, zs, zf, more) <-
        parse_hh_mm_ss_ff z (Z.of_nat (List.length z)) ;;
      if more then Raise ValueError
      else
        let tzoffset := tzsign * (zh * 3600 + zm * 60 + zs) in
        Ok (h, m, s, f,
            Some (if tzoffset =? 0 then 0
                  else tzoffset * micros_per_second + tzsign * zf))
  end.

Definition day_micros : Z := 86400 * micros_per_second.

(** Range checks of the [datetime] and [timezone] constructors. *)
Definition check_datetime (dt : datetime) : res datetime :=
  if (1 <=? year dt) && (year dt <=? 9999)
     && (1 <=? month dt) && (month dt <=? 12)
     && (1 <=? day dt) && (day dt <=? days_in_month (year dt) (month dt))
     && (hour dt <? 24) && (minute dt <? 60) && (second dt <? 60)
     && match utcoffset dt with
        | None => true
        | Some off => (- day_micros <? off) && (off <? day_micros)
        end
  then Ok dt else Raise ValueError.

(** The bytes of the character that separates date and time. *)
Definition separator_width (c : ascii) : nat :=
  let n := N_of_ascii c in
  if (n <? 128)%N then 1%nat
  else if (N.land n 240 =? 224)%N then 3%nat
  else if (N.land n 240 =? 240)%N then 4%nat
  else 2%nat.

Definition fromisoformat (s : string) : res datetime :=
  let dtstr := encode s in
  let len := Z.of_nat (List.length dtstr) in
  if len <? 7 then Raise ValueError
  else
    match find_isoformat_datetime_separator dtstr len with
    | None => Raise ValueError
    | Some separator_location =>
      '(y, m, d) <- parse_isoformat_date dtstr separator_location ;;
      if separator_location <? len then
        let p := skipn (Z.to_nat separator_location) dtstr in
        '(h, mi, sec, f, off) <-
          parse_isoformat_time (skipn (separator_width (peek p)) p) ;;
        check_datetime
          {| year := y; month := m; day := d; hour := h; minute := mi;
             second := sec; microsecond := f; utcoffset := off |}
      else
        check_datetime
          {| year := y; month := m; day := d; hour := 0; minute := 0;
             second := 0; microsecond := 0; utcoffset := None |}
    end.

(** The instant of a UTC wall-clock reading, for writing down clocks. *)
Definition utc (y m d h mi s : Z) : Z :=
  wall_micros {| year := y; month := m; day := d; hour := h; minute := mi;
                 second := s; microsecond := 0; utcoffset := Some 0 |}.

(** ** The outside world *)

Record search : Type := {
  query : string;
  location : string;
  remote : bool
}.

Definition API_HOST : string := "jsearch.p.rapidapi.com".

Definition SEARCHES : list search := [
  {| query := "marketing director women's health";
     location := "New York, NY"; remote := false |};
  {| query := "marketing director women's health";
     location := "United States"; remote := true |};
  {| query := "VP marketing mental health";
     location := "New York, NY"; remote := false |};
  {| query := "VP marketing mental health";
     location := "United States"; remote := true |};
  {| query := "brand strategy healthcare";
     location := "New York, NY"; remote := false |};
  {| query := "brand strategy healthcare";
     location := "United States"; remote := true |};
  {| query := "brand director femtech";
     location := "New York, NY"; remote := false |};
  {| query := "brand director femtech";
     location := "United States"; remote := true |}
].

Definition CUTOFF_HOURS : Z := 48.

(** A request, kept as the parameters and headers that make it up: the
    query, the [remote_jobs_only] flag, the [location] parameter that is
    only sent for a search that is not remote, and the two headers. *)
Record request : Type := {
  rq_query : string;
  rq_remote_jobs_only : string;
  rq_location : option string;
  rq_key : string;
  rq_host : string
}.

(** One element of the sequence under ["data"]: a JSON object, or
    anything else (which has no [get]). *)
Inductive entry : Type :=
| Listing (d : dict)
| NotAnObject.

(** The value under ["data"]. *)
Inductive payload : Type :=
| PList (l : list entry)
| PDict (keys : list string)
| PValue (v : value).

(** A body that parsed as JSON: an object (with its ["data"] member when
    it has one) or any other top-level value. *)
Inductive json_body : Type :=
| JObject (data : option payload)
| JOther.

(** What [urlopen], [read], [decode] and [json.loads] come to: an
    exception out of the network layer, or a 2xx body, which is [None]
    when it does not decode as JSON. *)
Inductive response : Type :=
| Fails (e : exn)
| Body (b : option json_body).

Record world : Type := {
  RAPIDAPI_KEY : option string;
  clock_start : Z;
  clock_end : Z;
  urlopen : request -> response
}.

(** The normalised record appended to [all_jobs]. *)
Record listing : Type := {
  id : value;
  title : value;
  company : value;
  location_str : string;
  is_remote : value;
  date_posted : value;
  salary : string;
  apply_link : value;
  description_snippet : value;
  employer_logo : value
}.

Record output : Type := {
  last_updated : Z;
  job_count : nat;
  jobs : list listing
}.

Inductive message : Type :=
| MsgNoKey
| MsgFetching (label : string)
| MsgFound (n : nat)
| MsgHTTP (code : Z) (q : string) (r : bool) (reason : string)
| MsgNetwork (q : string) (e : exn)
| MsgDone (n : nat).

Inductive event : Type :=
| Print (m : message)
| UrlOpen (r : request)
| Sleep (seconds : Z)
| WriteFile (name : string) (o : output).

(** A computation with effects: the events it performed, in order, and
    its result or the exception that stopped it. *)
Definition io (A : Type) : Type := list event * res A.

Definition io_ret {A : Type} (a : A) : io A := ([], Ok a).

Definition io_bind {A B : Type} (m : io A) (f : A -> io B) : io B :=
  match m with
  | (t, Ok a) => let '(t', r) := f a in (t ++ t', r)
  | (t, Raise e) => (t, Raise e)
  end.

Definition emit (e : event) : io unit := ([e], Ok tt).

Definition lift {A : Type} (m : res A) : io A := ([], m).

Notation "x <~ m ;; k" := (io_bind m (fun x => k))
  (at level 61, m at next level, right associativity).
Notation "m ;;; k" := (io_bind m (fun _ => k))
  (at level 61, right associativity).

(** ** The script *)

(** [API_KEY = os.environ.get("RAPIDAPI_KEY", "")] *)
Definition API_KEY (w : world) : string :=
  match RAPIDAPI_KEY w with
  | Some k => k
  | None => ""
  end.

(** Lines 33-45: the URL parameters and the headers. *)
Definition make_request (w : world) (q loc : string) (rem : bool)
  : request :=
  let remote_filter := if rem then "true" else "false" in
  {| rq_query := q;
     rq_remote_jobs_only := remote_filter;
     rq_location := if negb rem then Some loc else None;
     rq_key := API_KEY w;
     rq_host := API_HOST |}.

Definition fetch_jobs_for_query (w : world) (q loc : string) (rem : bool)
  : io payload :=
  let req := make_request w q loc rem in
  emit (UrlOpen req) ;;;
  match urlopen w req with
  | Body (Some (JObject (Some p))) => io_ret p
  | Body (Some (JObject None)) => io_ret (PList [])
  | Body (Some JOther) => lift (Raise AttributeError)
  | Body None => lift (Raise ValueError)
  | Fails (HTTPError code reason) =>
    emit (Print (MsgHTTP code q rem reason)) ;;; io_ret (PList [])
  | Fails (URLError r) =>
    emit (Print (MsgNetwork q (URLError r))) ;;; io_ret (PList [])
  | Fails TimeoutError =>
    emit (Print (MsgNetwork q TimeoutError)) ;;; io_ret (PList [])
  | Fails OSError =>
    emit (Print (MsgNetwork q OSError)) ;;; io_ret (PList [])
  | Fails e => lift (Raise e)
  end.

(** [len(results)] *)
Definition py_len (p : payload) : res nat :=
  match p with
  | PList l => Ok (List.length l)
  | PDict keys => Ok (List.length keys)
  | PValue (VStr s) => Ok (String.length s)
  | PValue _ => Raise TypeError
  end.

(** What [for job in results] yields: the elements of a list, the keys of
    a dict, the characters of a string. *)
Definition iterate (p : payload) : res (list entry) :=
  match p with
  | PList l => Ok l
  | PDict keys => Ok (map (fun _ => NotAnObject) keys)
  | PValue (VStr s) =>
    Ok (map (fun _ => NotAnObject) (list_ascii_of_string s))
  | PValue _ => Raise TypeError
  end.

(** [try: m except ValueError: h] *)
Definition except_ValueError {A : Type} (m : res A) (h : res A) : res A :=
  match m with
  | Raise ValueError => h
  | _ => m
  end.

(** [s.strip(", ")] *)
Definition in_strip_set (c : ascii) : bool :=
  Ascii.eqb c "," || Ascii.eqb c " ".

Fixpoint lstrip (l : list ascii) : list ascii :=
  match l with
  | c :: l' => if in_strip_set c then lstrip l' else l
  | [] => []
  end.

Definition strip (s : string) : string :=
  string_of_list_ascii
    (rev (lstrip (rev (lstrip (list_ascii_of_string s))))).

(** Lines 80-87: [true] when the listing is skipped as too old. *)
Definition too_old (posted : value) (cutoff : Z) : res bool :=
  if truthy posted then
    except_ValueError
      (match posted with
       | VStr s =>
         posted_dt <- fromisoformat (replace_char "Z" "+00:00" s) ;;
         datetime_lt posted_dt cutoff
       | _ => Raise AttributeError
       end)
      (Ok false)
  else Ok false.

(** Lines 96-107. *)
Definition salary_text (job : dict) : res string :=
  let salary_min := get job "job_min_salary" VNone in
  let salary_max := get job "job_max_salary" VNone in
  let salary_period := get job "job_salary_period" (VStr "") in
  if truthy salary_min && truthy salary_max then
    lo <- format_f0 salary_min ;;
    hi <- format_f0 salary_max ;;
    let salary := ("$" ++ lo ++ " - $" ++ hi)%string in
    if truthy salary_period
    then Ok (salary ++ " (" ++ py_str salary_period ++ ")")%string
    else Ok salary
  else if truthy salary_min then
    lo <- format_f0 salary_min ;; Ok ("From $" ++ lo)%string
  else if truthy salary_max then
    hi <- format_f0 salary_max ;; Ok ("Up to $" ++ hi)%string
  else Ok "".

(** [(v or "")[:200]] *)
Definition snippet (v : value) : res value :=
  match (if truthy v then v else VStr "") with
  | VStr s => Ok (VStr (substring 0 200 s))
  | _ => Raise TypeError
  end.

(** The accumulators of [main]. *)
Record acc : Type := {
  all_jobs : list listing;
  seen_ids : pyset
}.

(** The body of [for job in results] (lines 76-120). *)
Definition process_job (cutoff : Z) (st : acc) (job : entry) : res acc :=
  match job with
  | NotAnObject => Raise AttributeError
  | Listing job =>
    let job_id := get job "job_id" (VStr "") in
    if negb (truthy job_id) || set_mem job_id (seen_ids st) then Ok st
    else
      let posted := get job "job_posted_at_datetime_utc" (VStr "") in
      old <- too_old posted cutoff ;;
      if old then Ok st
      else
        let seen := set_add job_id (seen_ids st) in
        let is_remote := get job "job_is_remote" (VBool false) in
        let city := get job "job_city" (VStr "") in
        let state := get job "job_state" (VStr "") in
        let location_str :=
          if truthy is_remote then "Remote"
          else strip (py_str city ++ ", " ++ py_str state)%string in
        salary <- salary_text job ;;
        desc <- snippet (get job "job_description" (VStr "")) ;;
        Ok {| all_jobs := all_jobs st ++ [
                {| id := job_id;
                   title := get job "job_title" (VStr "Unknown Title");
                   company := get job "employer_name" (VStr "Unknown Company");
                   location_str := location_str;
                   is_remote := is_remote;
                   date_posted := posted;
                   salary := salary;
                   apply_link := get job "job_apply_link" (VStr "");
                   description_snippet := desc;
                   employer_logo := get job "employer_logo" (VStr "") |} ];
              seen_ids := seen |}
  end.

Fixpoint process_results (cutoff : Z) (st : acc) (l : list entry)
  : res acc :=
  match l with
  | [] => Ok st
  | job :: l' =>
    st' <- process_job cutoff st job ;;
    process_results cutoff st' l'
  end.

(** The body of [for search in SEARCHES] (lines 69-120). *)
Definition process_search (w : world) (cutoff : Z) (st : acc) (s : search)
  : io acc :=
  let label :=
    (query s ++ " (" ++ (if remote s then "Remote" else location s) ++ ")")
    %string in
  emit (Print (MsgFetching label)) ;;;
  results <~ fetch_jobs_for_query w (query s) (location s) (remote s) ;;
  n <~ lift (py_len results) ;;
  emit (Print (MsgFound n)) ;;;
  emit (Sleep 2) ;;;
  lift (l <- iterate results ;; process_results cutoff st l).

Fixpoint for_searches (w : world) (cutoff : Z) (st : acc) (l : list search)
  : io acc :=
  match l with
  | [] => io_ret st
  | s :: l' =>
    st' <~ process_search w cutoff st s ;;
    for_searches w cutoff st' l'
  end.

(** [list.sort(key=..., reverse=True)]: stable, consulting only [<] on the
    keys, elements with equal keys keeping their order.  The element that
    stood first goes in front of everything it is not smaller than. *)
Fixpoint insert_desc (x : listing) (l : list listing) : res (list listing) :=
  match l with
  | [] => Ok [x]
  | y :: l' =>
    lt <- py_lt (date_posted x) (date_posted y) ;;
    if lt then (r <- insert_desc x l' ;; Ok (y :: r)) else Ok (x :: l)
  end.

Fixpoint sort_desc (l : list listing) : res (list listing) :=
  match l with
  | [] => Ok []
  | x :: l' => s <- sort_desc l' ;; insert_desc x s
  end.

Definition cutoff_of (w : world) : Z :=
  clock_start w - CUTOFF_HOURS * 3600 * micros_per_second.

Definition empty_acc : acc := {| all_jobs := []; seen_ids := [] |}.

Definition main (w : world) : io unit :=
  if negb (truthy (VStr (API_KEY w))) then
    emit (Print MsgNoKey) ;;; lift (Raise (SystemExit 1))
  else
    let cutoff := cutoff_of w in
    st <~ for_searches w cutoff empty_acc SEARCHES ;;
    sorted <~ lift (sort_desc (all_jobs st)) ;;
    let out := {| last_updated := clock_end w;
                  job_count := List.length sorted;
                  jobs := sorted |} in
    emit (WriteFile "jobs.json" out) ;;;
    emit (Print (MsgDone (List.length sorted))).

(** ** Observations on a run *)

(** The exit status of the process. *)
Definition exit_status (r : res unit) : Z :=
  match r with
  | Ok _ => 0
  | Raise (SystemExit c) => c
  | Raise _ => 1
  end.

Definition is_request (e : event) : bool :=
  match e with UrlOpen _ => true | _ => false end.

Definition is_write (e : event) : bool :=
  match e with WriteFile _ _ => true | _ => false end.

(** The content of the file a run leaves behind, if it wrote one. *)
Fixpoint last_write (t : list event) : option output :=
  match t with
  | [] => None
  | e :: t' =>
    match last_write t', e with
    | Some o, _ => Some o
    | None, WriteFile _ o => Some o
    | None, _ => None
    end
  end.

Definition file_written (w : world) : option output :=
  last_write (fst (main w)).

(** [del d[k]]: the dict without the key. *)
Fixpoint del (d : dict) (k : string) : dict :=
  match d with
  | [] => []
  | (k', v) :: d' =>
    if (k' =? k)%string then del d' k else (k', v) :: del d' k
  end.

(** The exceptions the two [except] clauses of [fetch_jobs_for_query]
    catch. *)
Definition caught (e : exn) : bool :=
  match e with
  | HTTPError _ _ | URLError _ | TimeoutError | OSError => true
  | _ => false
  end.

(** A 2xx response whose ["data"] is the empty list. *)
Definition empty_page : response := Body (Some (JObject (Some (PList [])))).

Definition request_eqb (a b : request) : bool :=
  (rq_query a =? rq_query b)%string
  && (rq_remote_jobs_only a =? rq_remote_jobs_only b)%string
  && match rq_location a, rq_location b with
     | Some x, Some y => (x =? y)%string
     | None, None => true
     | _, _ => false
     end
  && (rq_key a =? rq_key b)%string
  && (rq_host a =? rq_host b)%string.

(** The world in which the request [r] is answered with an empty page. *)
Definition with_empty_page (w : world) (r : request) : world := {|
  RAPIDAPI_KEY := RAPIDAPI_KEY w;
  clock_start := clock_start w;
  clock_end := clock_end w;
  urlopen := fun r' => if request_eqb r' r then empty_page else urlopen w r'
|}.

(** The request [main] sends for a search. *)
Definition request_of (w : world) (s : search) : request :=
  make_request w (query s) (location s) (remote s).

(** The key two values share in a [set]: equal numbers hash alike. *)
Definition hash_key (v : value) : value :=
  match as_int v with
  | Some z => VInt z
  | None => v
  end.

(** The listing's date is not smaller than the other's. *)
Definition date_ge (a b : listing) : Prop :=
  py_lt (date_posted a) (date_posted b) = Ok false.

(** A date that, where it parses, denotes an instant not before [c]. *)
Definition recent (c : Z) (v : value) : Prop :=
  forall s dt,
    v = VStr s ->
    fromisoformat (replace_char "Z" "+00:00" s) = Ok dt ->
    exists t, utc_micros dt = Some t /\ c <= t.

(** The raw listings of a run, in the order [main] meets them: the pages
    of the searches one after the other. *)
Fixpoint raw_listings (w : world) (l : list search) : res (list entry) :=
  match l with
  | [] => Ok []
  | s :: l' =>
    results <-
      snd (fetch_jobs_for_query w (query s) (location s) (remote s)) ;;
    _ <- py_len results ;;
    page <- iterate results ;;
    rest <- raw_listings w l' ;;
    Ok (page ++ rest)
  end.

(** ** Invariants of the accumulators *)

(** Every accepted identifier is in the dedup set, and no two accepted
    identifiers are equal. *)
Definition dedup_inv (st : acc) : Prop :=
  (forall j, In j (all_jobs st) -> set_mem (id j) (seen_ids st) = true) /\
  NoDup (map (fun j => hash_key (id j)) (all_jobs st)).

(** Accepted listings are recent wherever their date parses. *)
Definition recent_inv (c : Z) (st : acc) : Prop :=
  forall j, In j (all_jobs st) -> recent c (date_posted j).

(** Accepted and seen identifiers are truthy. *)
Definition truthy_inv (st : acc) : Prop :=
  (forall j, In j (all_jobs st) -> truthy (id j) = true) /\
  (forall x, In x (seen_ids st) -> truthy x = true).

(** ** The salary text in the words of the specification

    Both bounds present: ["$min - $max"], with [" (period)"] after it
    when there is a period label; only the minimum: ["From $min"]; only
    the maximum: ["Up to $max"]; neither: the empty text. *)
Definition salary_by_presence
  (lo hi : option Z) (period : option string) : string :=
  match lo, hi with
  | Some a, Some b =>
    let range := ("$" ++ commas a ++ " - $" ++ commas b)%string in
    match period with
    | Some p => (range ++ " (" ++ p ++ ")")%string
    | None => range
    end
  | Some a, None => ("From $" ++ commas a)%string
  | None, Some b => ("Up to $" ++ commas b)%string
  | None, None => ""
  end.

(** What the truth tests of the code make of a bound and of a label: a
    bound of zero and an empty label count as absent. *)
Definition nonzero (o : option Z) : option Z :=
  match o with
  | Some z => if z =? 0 then None else Some z
  | None => None
  end.

Definition nonempty (o : option string) : option string :=
  match o with
  | Some p => if (p =? "")%string then None else Some p
  | None => None
  end.

(** The value a JSON member holds for an optional number or label. *)
Definition number_field (o : option Z) : value :=
  match o with
  | Some z => VInt z
  | None => VNone
  end.

Definition label_field (o : option string) : value :=
  match o with
  | Some p => VStr p
  | None => VStr ""
  end.

(** ** A sample run

    Six searches fail in the network layer; the two "brand director
    femtech" searches return listings.  The clock reads 2024-05-10 12:00
    UTC, so the cutoff is 2024-05-08 12:00 UTC. *)

Definition sample_job (i p : string) : entry :=
  Listing [("job_id", VStr i);
           ("job_title", VStr "Brand Director");
           ("job_posted_at_datetime_utc", VStr p);
           ("job_min_salary", VInt 80000);
           ("job_max_salary", VInt 120000);
           ("job_salary_period", VStr "year");
           ("job_city", VStr "Boston");
           ("job_state", VStr "MA")].

Definition sample_page_local : list entry := [
  sample_job "J1" "2024-05-08T02:00:00.000Z";
  sample_job "J2" "2024-05-09T12:00:00.000Z";
  sample_job "J2" "2024-05-09T12:00:00.000Z";
  Listing [("job_title", VStr "No identifier")];
  Listing [("job_id", VStr ""); ("job_title", VStr "Empty identifier")]
].

Definition sample_page_remote : list entry := [
  sample_job "J1" "2024-05-10T02:00:00.000Z";
  sample_job "J3" "2024-05-09T02:00:00+02:00";
  sample_job "J2" "2024-05-10T08:00:00.000Z";
  Listing [("job_id", VStr "J4"); ("job_is_remote", VBool true)];
  sample_job "J5" "yesterday"
].

Definition sample_urlopen (r : request) : response :=
  if (rq_query r =? "brand director femtech")%string then
    if (rq_remote_jobs_only r =? "true")%string
    then Body (Some (JObject (Some (PList sample_page_remote))))
    else Body (Some (JObject (Some (PList sample_page_local))))
  else if (rq_query r =? "brand strategy healthcare")%string then
    Fails (URLError "Name or service not known")
  else if (rq_query r =? "VP marketing mental health")%string then
    Fails TimeoutError
  else Fails (HTTPError 429 "Too Many Requests").

Definition sample_world : world := {|
  RAPIDAPI_KEY := Some "secret";
  clock_start := utc 2024 5 10 12 0 0;
  clock_end := utc 2024 5 10 12 0 20;
  urlopen := sample_urlopen
|}.

Definition no_output : output :=
  {| last_updated := 0; job_count := 0; jobs := [] |}.

Definition sample_output : output :=
  Eval vm_compute in
    match file_written sample_world with
    | Some o => o
    | None => no_output
    end.

(** The same run with no credential in the environment. *)
Definition keyless_world : world := {|
  RAPIDAPI_KEY := None;
  clock_start := clock_start sample_world;
  clock_end := clock_end sample_world;
  urlopen := sample_urlopen
|}.

(** The same run, the failed searches answered with an empty page. *)
Definition quiet_world : world := {|
  RAPIDAPI_KEY := Some "secret";
  clock_start := clock_start sample_world;
  clock_end := clock_end sample_world;
  urlopen := fun r =>
    match sample_urlopen r with
    | Fails _ => empty_page
    | x => x
    end
|}.

(** A run whose first search is answered with a body that is not JSON. *)
Definition garbled_world : world := {|
  RAPIDAPI_KEY := Some "secret";
  clock_start := clock_start sample_world;
  clock_end := clock_end sample_world;
  urlopen := fun _ => Body None
|}.

(** A listing whose timestamp carries no UTC offset. *)
Definition naive_job : entry :=
  Listing [("job_id", VStr "J1");
           ("job_posted_at_datetime_utc", VStr "2024-05-10T02:00:00")].

Definition naive_world : world := {|
  RAPIDAPI_KEY := Some "secret";
  clock_start := clock_start sample_world;
  clock_end := clock_end sample_world;
  urlopen := fun _ => Body (Some (JObject (Some (PList [naive_job]))))
|}.

(** A listing nine days old whose timestamp carries no UTC offset. *)
Definition stale_naive_job : entry :=
  Listing [("job_id", VStr "J9");
           ("job_posted_at_datetime_utc", VStr "2024-05-01T00:00:00")].

Definition stale_naive_world : world := {|
  RAPIDAPI_KEY := Some "secret";
  clock_start := clock_start sample_world;
  clock_end := clock_end sample_world;
  urlopen := fun _ => Body (Some (JObject (Some (PList [stale_naive_job]))))
|}.

(** The line a handler of lines 51-56 prints for the exception it
    caught. *)
Definition failure_message (q : string) (rem : bool) (e : exn) : message :=
  match e with
  | HTTPError code reason => MsgHTTP code q rem reason
  | _ => MsgNetwork q e
  end.

(** What a search whose request fails with a caught exception [e] does:
    it prints its label, sends the request, prints the handler's line
    and the count of zero results, and sleeps. *)
Definition failed_search_trace (w : world) (s : search) (e : exn)
  : list event :=
  [Print (MsgFetching
            (query s ++ " (" ++ (if remote s then "Remote" else location s)
             ++ ")")%string);
   UrlOpen (request_of w s);
   Print (failure_message (query s) (remote s) e);
   Print (MsgFound 0);
   Sleep 2].

(** ** Further parts of the script *)

(** Line 94: the location text. *)
Definition location_text (is_remote city state : value) : string :=
  if truthy is_remote then "Remote"
  else strip (py_str city ++ ", " ++ py_str state)%string.

(** Lines 109-120: the record appended for an accepted listing, given its
    salary text and its description snippet. *)
Definition build_listing (job : dict) (salary : string) (desc : value)
  : listing :=
  {| id := get job "job_id" (VStr "");
     title := get job "job_title" (VStr "Unknown Title");
     company := get job "employer_name" (VStr "Unknown Company");
     location_str :=
       location_text (get job "job_is_remote" (VBool false))
                     (get job "job_city" (VStr ""))
                     (get job "job_state" (VStr ""));
     is_remote := get job "job_is_remote" (VBool false);
     date_posted := get job "job_posted_at_datetime_utc" (VStr "");
     salary := salary;
     apply_link := get job "job_apply_link" (VStr "");
     description_snippet := desc;
     employer_logo := get job "employer_logo" (VStr "") |}.

(** [k in d] *)
Fixpoint has_key (d : dict) (k : string) : bool :=
  match d with
  | [] => false
  | (k', _) :: d' => (k' =? k)%string || has_key d' k
  end.

(** *** The URL of a search (lines 33-41)

    [urllib.parse.quote_plus]: letters, digits and [_.-~] stand for
    themselves, a space becomes [+], every other character becomes the
    bytes of its UTF-8 encoding, each written [%XX] in upper-case
    hexadecimal. *)

Definition BASE_URL : string := ("https://" ++ API_HOST ++ "/search")%string.

Definition hex_digit (n : N) : ascii :=
  ascii_of_N (if (n <? 10)%N then 48 + n else 55 + n)%N.

Definition percent_byte (b : N) : list ascii :=
  ["%"%char; hex_digit (b / 16)%N; hex_digit (b mod 16)%N].

Definition always_safe (c : ascii) : bool :=
  let n := N_of_ascii c in
  ((48 <=? n) && (n <=? 57))%N || ((65 <=? n) && (n <=? 90))%N
  || ((97 <=? n) && (n <=? 122))%N
  || Ascii.eqb c "_" || Ascii.eqb c "." || Ascii.eqb c "-"
  || Ascii.eqb c "~".

Definition quote_char (c : ascii) : list ascii :=
  if Ascii.eqb c " " then ["+"%char]
  else if always_safe c then [c]
  else flat_map percent_byte (utf8_bytes c).

Definition quote_plus (s : string) : string :=
  string_of_list_ascii (flat_map quote_char (list_ascii_of_string s)).

(** Lines 33-41. *)
Definition build_url (q loc : string) (rem : bool) : string :=
  let remote_filter := if rem then "true" else "false" in
  let url :=
    (BASE_URL ++ "?query=" ++ quote_plus q
     ++ "&page=1&num_pages=1"
     ++ "&date_posted=week"
     ++ "&remote_jobs_only=" ++ remote_filter)%string in
  if negb rem then (url ++ "&location=" ++ quote_plus loc)%string
  else url.

(** The same URL, read off the parameters a [request] keeps. *)
Definition request_url (r : request) : string :=
  let url :=
    (BASE_URL ++ "?query=" ++ quote_plus (rq_query r)
     ++ "&page=1&num_pages=1"
     ++ "&date_posted=week"
     ++ "&remote_jobs_only=" ++ rq_remote_jobs_only r)%string in
  match rq_location r with
  | Some loc => (url ++ "&location=" ++ quote_plus loc)%string
  | None => url
  end.

(** [urllib.parse.unquote_plus], by which the receiving end reads a
    parameter back: [+] is a space, [%XX] a byte, and the bytes are read
    as UTF-8 (here for code points below 256; what is not such a sequence
    is read as [?]). *)
Definition hex_val (c : ascii) : option N :=
  let n := N_of_ascii c in
  if ((48 <=? n) && (n <=? 57))%N then Some (n - 48)%N
  else if ((65 <=? n) && (n <=? 70))%N then Some (n - 55)%N
  else if ((97 <=? n) && (n <=? 102))%N then Some (n - 87)%N
  else None.

Fixpoint unquote_bytes (l : list ascii) : list N :=
  match l with
  | [] => []
  | c :: tl =>
    if Ascii.eqb c "%" then
      match tl with
      | h1 :: h2 :: l' =>
        match hex_val h1, hex_val h2 with
        | Some a, Some b => (16 * a + b)%N :: unquote_bytes l'
        | _, _ => 37%N :: unquote_bytes tl
        end
      | _ => 37%N :: unquote_bytes tl
      end
    else if Ascii.eqb c "+" then 32%N :: unquote_bytes tl
    else N_of_ascii c :: unquote_bytes tl
  end.

Fixpoint utf8_decode (bs : list N) : list ascii :=
  match bs with
  | [] => []
  | b :: tl =>
    if (b <? 128)%N then ascii_of_N b :: utf8_decode tl
    else
      match tl with
      | b2 :: tl' =>
        if ((194 <=? b) && (b <=? 195) && (128 <=? b2) && (b2 <=? 191))%N
        then ascii_of_N ((b - 192) * 64 + (b2 - 128))%N :: utf8_decode tl'
        else "?"%char :: utf8_decode tl
      | [] => ["?"%char]
      end
  end.

Definition unquote_plus (s : string) : string :=
  string_of_list_ascii
    (utf8_decode (unquote_bytes (list_ascii_of_string s))).

(** The characters [quote_plus] can produce. *)
Definition url_safe (c : ascii) : bool :=
  always_safe c || Ascii.eqb c "+" || Ascii.eqb c "%".

(** How often a character occurs in a text. *)
Definition occurrences (c : ascii) (s : string) : nat :=
  List.length (filter (Ascii.eqb c) (list_ascii_of_string s)).

(** *** Observations on traces and texts *)

(** The requests and the pauses of a trace, in order. *)
Definition is_paced (e : event) : bool :=
  match e with
  | UrlOpen _ | Sleep _ => true
  | _ => false
  end.

(** One request and one pause of two seconds for each search. *)
Definition schedule (w : world) (l : list search) : list event :=
  flat_map (fun s => [UrlOpen (request_of w s); Sleep 2]) l.

Definition prefix {A : Type} (a b : list A) : Prop :=
  exists c, b = a ++ c.

(** A text without its commas. *)
Definition strip_commas (s : string) : string :=
  string_of_list_ascii
    (filter (fun c => negb (Ascii.eqb c ",")) (list_ascii_of_string s)).

(** Every comma of the reversed text [l] comes after exactly three
    digits; [k] digits stand before the first character. *)
Fixpoint grouped_rev (l : list ascii) (k : nat) : bool :=
  match l with
  | [] => true
  | c :: l' =>
    if Ascii.eqb c "," then Nat.eqb k 3 && grouped_rev l' 0
    else is_digit c && Nat.ltb k 3 && grouped_rev l' (S k)
  end.

(** *** Input of the documented shape *)

(** A salary bound: null, or an integer below 2^53 in magnitude. *)
Definition plain_number (v : value) : Prop :=
  v = VNone \/ exists z, v = VInt z /\ Z.abs z < 2 ^ 53.

(** A timestamp text that, where it parses, carries a UTC offset. *)
Definition offset_or_unparsed (s : string) : Prop :=
  forall dt,
    fromisoformat (replace_char "Z" "+00:00" s) = Ok dt ->
    utcoffset dt <> None.

(** A listing of the documented shape: the identifier is a text or is
    missing; the timestamp is a text, or is missing, and carries an
    offset where it parses; the salary bounds are plain numbers; the
    description is a text, null or missing. *)
Definition well_formed_job (job : dict) : Prop :=
  (exists i, get job "job_id" (VStr "") = VStr i) /\
  (exists s, get job "job_posted_at_datetime_utc" (VStr "") = VStr s /\
             offset_or_unparsed s) /\
  plain_number (get job "job_min_salary" VNone) /\
  plain_number (get job "job_max_salary" VNone) /\
  (get job "job_description" (VStr "") = VNone \/
   exists s, get job "job_description" (VStr "") = VStr s).

Definition well_formed_entry (e : entry) : Prop :=
  exists job, e = Listing job /\ well_formed_job job.

(** An answer that is a failure the fetch catches, an object without
    ["data"], or a page of well-formed listings. *)
Definition well_formed_response (r : response) : Prop :=
  (exists e, r = Fails e /\ caught e = true) \/
  r = Body (Some (JObject None)) \/
  exists l, r = Body (Some (JObject (Some (PList l)))) /\
            Forall well_formed_entry l.

(** A text that is not empty and neither begins nor ends with a comma
    or a space. *)
Definition tidy (s : string) : bool :=
  let l := list_ascii_of_string s in
  match l, rev l with
  | c :: _, d :: _ => negb (in_strip_set c) && negb (in_strip_set d)
  | _, _ => false
  end.

(** *** More sample runs *)

(** The run in which every request gets the same answer. *)
Definition constant_world (r : response) : world := {|
  RAPIDAPI_KEY := Some "secret";
  clock_start := clock_start sample_world;
  clock_end := clock_end sample_world;
  urlopen := fun _ => r
|}.

(** The run in which every request gets the same page of listings. *)
Definition page_world (l : list entry) : world :=
  constant_world (Body (Some (JObject (Some (PList l))))).

(** * Properties *)

(** ** Comparison of strings and values *)

Section StringOrder.

Lemma compare_refl (s : string) : String.compare s s = Eq.
Proof.
  pose proof (String.compare_antisym s s) as H.
  destruct (String.compare s s); simpl in H; congruence.
Qed.

Lemma ascii_compare_lt_trans (a b c : ascii) :
  Ascii.compare a b = Lt -> Ascii.compare b c = Lt ->
  Ascii.compare a c = Lt.
Proof.
  unfold Ascii.compare. rewrite !N.compare_lt_iff. lia.
Qed.

Lemma compare_lt_trans (s t u : string) :
  String.compare s t = Lt -> String.compare t u = Lt ->
  String.compare s u = Lt.
Proof.
  revert t u.
  induction s as [|a s IH]; intros [|b t] [|c u]; simpl; try congruence.
  destruct (Ascii.compare a b) eqn:Hab; try discriminate;
    destruct (Ascii.compare b c) eqn:Hbc; try discriminate; intros H1 H2.
  - apply Ascii.compare_eq_iff in Hab, Hbc. subst.
    rewrite (proj2 (N.compare_eq_iff _ _) eq_refl : Ascii.compare c c = Eq).
    eauto.
  - apply Ascii.compare_eq_iff in Hab. subst. now rewrite Hbc.
  - apply Ascii.compare_eq_iff in Hbc. subst. now rewrite Hab.
  - now rewrite (ascii_compare_lt_trans _ _ _ Hab Hbc).
Qed.

Lemma ltb_asym (s t : string) :
  (s <? t)%string = true -> (t <? s)%string = false.
Proof.
  unfold String.ltb. rewrite (String.compare_antisym t s).
  destruct (String.compare s t); simpl; congruence.
Qed.

Lemma ltb_neq (s t : string) :
  (s <? t)%string = true -> (s =? t)%string = false.
Proof.
  intros H. apply String.eqb_neq. intros ->.
  unfold String.ltb in H. now rewrite compare_refl in H.
Qed.

(** [<=] read backwards is transitive: from [t <= s] and [u <= t]. *)
Lemma not_ltb_trans (s t u : string) :
  (s <? t)%string = false -> (t <? u)%string = false ->
  (s <? u)%string = false.
Proof.
  unfold String.ltb. intros Hst Htu.
  destruct (String.compare s t) eqn:E1; try discriminate.
  - apply String.compare_eq_iff in E1. now subst.
  - destruct (String.compare t u) eqn:E2; try discriminate.
    + apply String.compare_eq_iff in E2. subst. now rewrite E1.
    + assert (H1 : String.compare t s = Lt)
        by (rewrite String.compare_antisym, E1; reflexivity).
      assert (H2 : String.compare u t = Lt)
        by (rewrite String.compare_antisym, E2; reflexivity).
      rewrite String.compare_antisym,
        (compare_lt_trans _ _ _ H2 H1). reflexivity.
Qed.

Lemma not_ltb_leb (s t : string) :
  (s <? t)%string = false <-> (t <=? s)%string = true.
Proof.
  unfold String.ltb, String.leb. rewrite (String.compare_antisym t s).
  destruct (String.compare s t); simpl; split; congruence.
Qed.

Lemma empty_not_ltb (t : string) :
  ("" <? t)%string = false -> t = "".
Proof. destruct t; [reflexivity | discriminate]. Qed.

End StringOrder.

Section Values.

Lemma Ok_inj {A : Type} (a b : A) : Ok a = Ok b -> a = b.
Proof. congruence. Qed.

Lemma py_eq_hash_key (a b : value) :
  py_eq a b = true <-> hash_key a = hash_key b.
Proof.
  destruct a as [|[]|x|s], b as [|[]|y|t]; cbv [py_eq hash_key as_int];
    rewrite ?Z.eqb_eq, ?String.eqb_eq;
    split; intros H; try congruence; try reflexivity; try discriminate.
Qed.

Lemma py_eq_refl (a : value) : py_eq a a = true.
Proof. now apply py_eq_hash_key. Qed.

Lemma set_mem_In (x : value) (s : pyset) :
  set_mem x s = true <-> In (hash_key x) (map hash_key s).
Proof.
  unfold set_mem. rewrite existsb_exists, in_map_iff.
  split; intros [y [H1 H2]].
  - exists y. split; [symmetry; now apply py_eq_hash_key | assumption].
  - exists y. split; [assumption | apply py_eq_hash_key; congruence].
Qed.

Lemma set_mem_add (x y : value) (s : pyset) :
  set_mem x (set_add y s) = py_eq x y || set_mem x s.
Proof.
  unfold set_add. destruct (set_mem y s) eqn:E; simpl; [|reflexivity].
  destruct (py_eq x y) eqn:Exy; simpl; [|reflexivity].
  apply set_mem_In. apply set_mem_In in E.
  apply py_eq_hash_key in Exy. congruence.
Qed.

Lemma py_lt_true_neq (a b : value) :
  py_lt a b = Ok true -> py_eq a b = false.
Proof.
  destruct a as [|[]|x|s], b as [|[]|y|t]; cbv [py_lt py_eq as_int];
    try discriminate; try reflexivity; intros H; apply Ok_inj in H;
    try (apply Z.eqb_neq; apply Z.ltb_lt in H; lia).
  now apply ltb_neq.
Qed.

Lemma py_lt_asym (a b : value) :
  py_lt a b = Ok true -> py_lt b a = Ok false.
Proof.
  destruct a as [|[]|x|s], b as [|[]|y|t]; cbv [py_lt as_int];
    try discriminate; try reflexivity; intros H; apply Ok_inj in H;
    f_equal; try (apply Z.ltb_ge; apply Z.ltb_lt in H; lia).
  now apply ltb_asym.
Qed.

Lemma py_lt_false_trans (a b c : value) :
  py_lt a b = Ok false -> py_lt b c = Ok false -> py_lt a c = Ok false.
Proof.
  destruct a as [|[]|x|s], b as [|[]|y|t], c as [|[]|z|u];
    cbv [py_lt as_int];
    try discriminate; try reflexivity; intros H1 H2;
    apply Ok_inj in H1, H2; f_equal;
    try (rewrite ?Z.ltb_ge in *; lia).
  eapply not_ltb_trans; eassumption.
Qed.

End Values.

(** ** Traces and results of effectful code *)

Section Effects.

#[local] Arguments fetch_jobs_for_query : simpl never.
#[local] Arguments process_search : simpl never.
#[local] Arguments sort_desc : simpl never.

Lemma snd_io_bind {A B : Type} (m : io A) (f : A -> io B) :
  snd (io_bind m f) = bind (snd m) (fun a => snd (f a)).
Proof.
  destruct m as [t [a|e]]; simpl; [|reflexivity].
  now destruct (f a).
Qed.

Lemma fst_io_bind {A B : Type} (m : io A) (f : A -> io B) :
  fst (io_bind m f) =
  fst m ++ match snd m with
           | Ok a => fst (f a)
           | Raise _ => []
           end.
Proof.
  destruct m as [t [a|e]]; simpl; [|now rewrite app_nil_r].
  now destruct (f a).
Qed.

Lemma last_write_app (t t' : list event) :
  last_write (t ++ t') =
  match last_write t' with
  | Some o => Some o
  | None => last_write t
  end.
Proof.
  induction t as [|e t IH]; simpl.
  - now destruct (last_write t').
  - rewrite IH. destruct (last_write t'); [reflexivity|].
    reflexivity.
Qed.

Lemma existsb_last_write (t : list event) :
  existsb is_write t = false -> last_write t = None.
Proof.
  induction t as [|e t IH]; simpl; [reflexivity|].
  intros H. apply orb_false_iff in H as [He Ht].
  rewrite (IH Ht). destruct e; simpl in He; congruence.
Qed.

Lemma fetch_no_write (w : world) (q loc : string) (rem : bool) :
  existsb is_write (fst (fetch_jobs_for_query w q loc rem)) = false.
Proof.
  unfold fetch_jobs_for_query. rewrite fst_io_bind. simpl.
  destruct (urlopen w _) as [[]|[[[p|]|]|]]; reflexivity.
Qed.

Lemma process_search_no_write (w : world) (c : Z) (st : acc) (s : search) :
  existsb is_write (fst (process_search w c st s)) = false.
Proof.
  unfold process_search.
  rewrite !fst_io_bind. simpl.
  rewrite existsb_app, fetch_no_write. simpl.
  destruct (snd (fetch_jobs_for_query _ _ _ _)) as [p|e]; [|reflexivity].
  destruct (py_len p); reflexivity.
Qed.

Lemma for_searches_no_write (w : world) (c : Z) (l : list search) :
  forall st, existsb is_write (fst (for_searches w c st l)) = false.
Proof.
  induction l as [|s l IH]; intros st; simpl; [reflexivity|].
  rewrite fst_io_bind, existsb_app, process_search_no_write. simpl.
  destruct (snd (process_search w c st s)); [apply IH | reflexivity].
Qed.

(** The result of one search, the trace left aside. *)
Lemma snd_process_search (w : world) (c : Z) (st : acc) (s : search) :
  snd (process_search w c st s) =
  (results <- snd (fetch_jobs_for_query w (query s) (location s) (remote s)) ;;
   _ <- py_len results ;;
   l <- iterate results ;;
   process_results c st l).
Proof.
  unfold process_search. rewrite !snd_io_bind. simpl.
  destruct (snd (fetch_jobs_for_query _ _ _ _)) as [p|e]; simpl;
    [|reflexivity].
  destruct (py_len p); reflexivity.
Qed.

Lemma snd_for_searches_cons
  (w : world) (c : Z) (st : acc) (s : search) (l : list search) :
  snd (for_searches w c st (s :: l)) =
  (st' <- snd (process_search w c st s) ;; snd (for_searches w c st' l)).
Proof. simpl. now rewrite snd_io_bind. Qed.

(** A run that leaves a file behind went through every stage. *)
Lemma main_written (w : world) (o : output) :
  file_written w = Some o ->
  truthy (VStr (API_KEY w)) = true /\
  exists st,
    snd (for_searches w (cutoff_of w) empty_acc SEARCHES) = Ok st /\
    sort_desc (all_jobs st) = Ok (jobs o) /\
    job_count o = List.length (jobs o) /\
    last_updated o = clock_end w /\
    snd (main w) = Ok tt.
Proof.
  unfold file_written, main.
  pose proof (for_searches_no_write w (cutoff_of w) SEARCHES empty_acc) as Hn.
  apply existsb_last_write in Hn.
  destruct (truthy (VStr (API_KEY w))); [|discriminate].
  destruct (for_searches w (cutoff_of w) empty_acc SEARCHES) as [t [st|e]];
    cbn [negb io_bind fst snd] in *; [|congruence].
  intros H. split; [reflexivity|].
  exists st. split; [reflexivity|].
  destruct (sort_desc (all_jobs st)) as [sorted|e]; simpl in *.
  - rewrite last_write_app in H. simpl in H. injection H as <-. simpl. auto.
  - rewrite app_nil_r in H. congruence.
Qed.

Lemma main_raises (w : world) (e : exn) :
  truthy (VStr (API_KEY w)) = true ->
  snd (for_searches w (cutoff_of w) empty_acc SEARCHES) = Raise e ->
  snd (main w) = Raise e /\ file_written w = None.
Proof.
  intros Hk He. unfold file_written, main. rewrite Hk.
  pose proof (for_searches_no_write w (cutoff_of w) SEARCHES empty_acc) as Hn.
  apply existsb_last_write in Hn.
  destruct (for_searches w (cutoff_of w) empty_acc SEARCHES) as [t [st|e']];
    cbn [negb io_bind fst snd] in *; [discriminate|].
  split; congruence.
Qed.

End Effects.

(** ** One listing, one page, all searches *)

Section Loop.

#[local] Arguments fetch_jobs_for_query : simpl never.
#[local] Arguments process_search : simpl never.
#[local] Arguments salary_text : simpl never.
#[local] Arguments too_old : simpl never.
#[local] Arguments snippet : simpl never.

(** What a step that returns has done: nothing, or appended one listing
    and marked its identifier. *)
Lemma process_job_Ok (c : Z) (st st' : acc) (e : entry) :
  process_job c st e = Ok st' ->
  st' = st \/
  exists job j,
    e = Listing job /\
    st' = {| all_jobs := all_jobs st ++ [j];
             seen_ids := set_add (id j) (seen_ids st) |} /\
    id j = get job "job_id" (VStr "") /\
    date_posted j = get job "job_posted_at_datetime_utc" (VStr "") /\
    salary_text job = Ok (salary j) /\
    truthy (id j) = true /\
    set_mem (id j) (seen_ids st) = false /\
    too_old (date_posted j) c = Ok false.
Proof.
  destruct e as [job|]; simpl; [|discriminate].
  destruct (truthy (get job "job_id" (VStr ""))) eqn:Hid; simpl;
    [|intros H; left; congruence].
  destruct (set_mem _ (seen_ids st)) eqn:Hseen;
    [intros H; left; congruence|].
  destruct (too_old _ c) as [[|]|] eqn:Hold; simpl;
    [intros H; left; congruence| |discriminate].
  destruct (salary_text job) as [sal|] eqn:Hsal; simpl; [|discriminate].
  destruct (snippet _) as [desc|] eqn:Hdesc; simpl; [|discriminate].
  intros H. right. injection H as <-.
  match goal with
  | |- context [all_jobs st ++ [?x]] => exists job, x
  end.
  simpl. auto 10.
Qed.

Section Invariant.

Variable P : acc -> Prop.
Variable c : Z.
Hypothesis step :
  forall st e st', P st -> process_job c st e = Ok st' -> P st'.

Lemma process_results_inv (l : list entry) :
  forall st st', P st -> process_results c st l = Ok st' -> P st'.
Proof.
  induction l as [|e l IH]; simpl; intros st st' HP H.
  - congruence.
  - destruct (process_job c st e) as [st1|] eqn:E; simpl in H;
      [|discriminate].
    eapply IH; [|eassumption]. eapply step; eassumption.
Qed.

Lemma process_search_inv (w : world) (s : search) (st st' : acc) :
  P st -> snd (process_search w c st s) = Ok st' -> P st'.
Proof.
  rewrite snd_process_search. intros HP H.
  destruct (snd (fetch_jobs_for_query _ _ _ _)) as [p|]; simpl in H;
    [|discriminate].
  destruct (py_len p); simpl in H; [|discriminate].
  destruct (iterate p) as [l|]; simpl in H; [|discriminate].
  eapply process_results_inv; eassumption.
Qed.

Lemma for_searches_inv (w : world) (l : list search) :
  forall st st', P st -> snd (for_searches w c st l) = Ok st' -> P st'.
Proof.
  induction l as [|s l IH]; intros st st' HP H.
  - simpl in H. congruence.
  - rewrite snd_for_searches_cons in H.
    destruct (snd (process_search w c st s)) as [st1|] eqn:E; simpl in H;
      [|discriminate].
    eapply IH; [|eassumption]. eapply process_search_inv; eassumption.
Qed.

End Invariant.

Lemma dedup_inv_step (c : Z) (st : acc) (e : entry) (st' : acc) :
  dedup_inv st -> process_job c st e = Ok st' -> dedup_inv st'.
Proof.
  intros [Hseen Hnd] H.
  apply process_job_Ok in H
    as [->|(job & j & _ & -> & _ & _ & _ & _ & Hnew & _)];
    [split; assumption|].
  split; simpl.
  - intros j' Hj'. rewrite set_mem_add.
    apply in_app_iff in Hj' as [Hj'|[<-|[]]].
    + rewrite (Hseen _ Hj'). apply orb_true_r.
    + now rewrite py_eq_refl.
  - rewrite map_app. simpl. apply NoDup_app. repeat split.
    + assumption.
    + constructor; [intros []|constructor].
    + intros k Hk [<-|[]].
      apply in_map_iff in Hk as [j' [Hk Hj']].
      apply Hseen in Hj'. apply set_mem_In in Hj'.
      rewrite Hk in Hj'. apply set_mem_In in Hj'. congruence.
Qed.

(** The dedup set only grows. *)
Lemma seen_grows_step (c : Z) (x : value) (st : acc) (e : entry) (st' : acc) :
  set_mem x (seen_ids st) = true -> process_job c st e = Ok st' ->
  set_mem x (seen_ids st') = true.
Proof.
  intros Hx H.
  apply process_job_Ok in H as [->|(job & j & _ & -> & _)];
    [assumption|].
  simpl. rewrite set_mem_add, Hx. apply orb_true_r.
Qed.

Lemma too_old_false_recent (c : Z) (v : value) :
  too_old v c = Ok false -> recent c v.
Proof.
  unfold too_old, recent. intros H s dt -> Hdt.
  destruct (truthy (VStr s)) eqn:Ht.
  - rewrite Hdt in H. simpl in H. unfold datetime_lt in *.
    destruct (utc_micros dt) as [t|]; simpl in H; [|discriminate].
    exists t. split; [reflexivity|].
    apply Ok_inj in H. apply Z.ltb_ge in H. assumption.
  - simpl in Ht. apply negb_false_iff, String.eqb_eq in Ht. subst.
    discriminate.
Qed.

Lemma recent_inv_step (c : Z) (st : acc) (e : entry) (st' : acc) :
  recent_inv c st -> process_job c st e = Ok st' -> recent_inv c st'.
Proof.
  intros Hinv H.
  apply process_job_Ok in H
    as [->|(job & j & _ & -> & _ & _ & _ & _ & _ & Hold)]; [assumption|].
  intros j' Hj'. simpl in Hj'.
  apply in_app_iff in Hj' as [Hj'|[<-|[]]]; [now apply Hinv|].
  now apply too_old_false_recent.
Qed.

Lemma truthy_inv_step (c : Z) (st : acc) (e : entry) (st' : acc) :
  truthy_inv st -> process_job c st e = Ok st' -> truthy_inv st'.
Proof.
  intros [Ha Hs] H.
  apply process_job_Ok in H
    as [->|(job & j & _ & -> & _ & _ & _ & Hid & _ & _)];
    [split; assumption|].
  split; simpl.
  - intros j' Hj'. apply in_app_iff in Hj' as [Hj'|[<-|[]]]; auto.
  - intros x Hx. unfold set_add in Hx.
    destruct (set_mem (id j) (seen_ids st)); [auto|].
    destruct Hx as [<-|Hx]; auto.
Qed.

End Loop.

(** ** Sorting *)

Section Sorting.

Lemma insert_desc_perm (x : listing) (l r : list listing) :
  insert_desc x l = Ok r -> Permutation (x :: l) r.
Proof.
  revert r. induction l as [|y l IH]; simpl; intros r H.
  - injection H as <-. apply Permutation_refl.
  - destruct (py_lt (date_posted x) (date_posted y)) as [[|]|]; simpl in H;
      try discriminate.
    + destruct (insert_desc x l) as [r'|]; simpl in H; [|discriminate].
      injection H as <-.
      eapply perm_trans; [apply perm_swap|].
      apply perm_skip. now apply IH.
    + injection H as <-. apply Permutation_refl.
Qed.

Lemma sort_desc_perm (l r : list listing) :
  sort_desc l = Ok r -> Permutation l r.
Proof.
  revert r. induction l as [|x l IH]; simpl; intros r H.
  - injection H as <-. constructor.
  - destruct (sort_desc l) as [s|]; simpl in H; [|discriminate].
    eapply perm_trans; [apply perm_skip, IH; reflexivity|].
    now apply insert_desc_perm.
Qed.

Lemma insert_desc_sorted (x : listing) (l r : list listing) :
  StronglySorted date_ge l -> insert_desc x l = Ok r ->
  StronglySorted date_ge r.
Proof.
  revert r. induction l as [|y l IH]; simpl; intros r Hs H.
  - injection H as <-. repeat constructor.
  - apply StronglySorted_inv in Hs as [Hs Hy].
    destruct (py_lt (date_posted x) (date_posted y)) as [[|]|] eqn:E;
      simpl in H; try discriminate.
    + destruct (insert_desc x l) as [r'|] eqn:Er; simpl in H; [|discriminate].
      injection H as <-. constructor; [now apply IH|].
      eapply Permutation_Forall; [apply insert_desc_perm; eassumption|].
      constructor; [|assumption]. now apply py_lt_asym.
    + injection H as <-. constructor; [now constructor|].
      constructor; [exact E|].
      eapply Forall_impl; [|exact Hy].
      intros z Hz. eapply py_lt_false_trans; eassumption.
Qed.

Lemma sort_desc_sorted (l r : list listing) :
  sort_desc l = Ok r -> StronglySorted date_ge r.
Proof.
  revert r. induction l as [|x l IH]; simpl; intros r H.
  - injection H as <-. constructor.
  - destruct (sort_desc l) as [s|]; simpl in H; [|discriminate].
    eapply insert_desc_sorted; [|eassumption]. now apply IH.
Qed.

Lemma py_eq_same_key (a b k : value) :
  py_eq a k = true -> py_eq b k = true -> py_eq a b = true.
Proof. rewrite !py_eq_hash_key. congruence. Qed.

(** Listings with one date keep their order: the sort is stable. *)
Lemma insert_desc_stable (k : value) (x : listing) (l r : list listing) :
  insert_desc x l = Ok r ->
  filter (fun j => py_eq (date_posted j) k) r =
  filter (fun j => py_eq (date_posted j) k) (x :: l).
Proof.
  revert r. induction l as [|y l IH]; simpl; intros r H.
  - now injection H as <-.
  - destruct (py_lt (date_posted x) (date_posted y)) as [[|]|] eqn:E;
      simpl in H; try discriminate.
    + destruct (insert_desc x l) as [r'|] eqn:Er; simpl in H; [|discriminate].
      injection H as <-. simpl. rewrite (IH _ eq_refl). simpl.
      apply py_lt_true_neq in E.
      destruct (py_eq (date_posted x) k) eqn:Ex,
               (py_eq (date_posted y) k) eqn:Ey; try reflexivity.
      rewrite (py_eq_same_key _ _ _ Ex Ey) in E. discriminate.
    + now injection H as <-.
Qed.

Lemma sort_desc_stable (k : value) (l r : list listing) :
  sort_desc l = Ok r ->
  filter (fun j => py_eq (date_posted j) k) r =
  filter (fun j => py_eq (date_posted j) k) l.
Proof.
  revert r. induction l as [|x l IH]; simpl; intros r H.
  - now injection H as <-.
  - destruct (sort_desc l) as [s|]; simpl in H; [|discriminate].
    rewrite (insert_desc_stable k _ _ _ H). simpl.
    now rewrite (IH _ eq_refl).
Qed.

(** Between strings, [date_ge] is the order of the text. *)
Lemma date_ge_strings (a b : listing) (s t : string) :
  date_posted a = VStr s -> date_posted b = VStr t ->
  date_ge a b -> (t <=? s)%string = true.
Proof.
  unfold date_ge. intros -> ->. cbv [py_lt]. intros H.
  apply Ok_inj in H. now apply not_ltb_leb.
Qed.

(** Nothing but empty dates comes after an empty date. *)
Lemma date_ge_empty (a b : listing) :
  date_posted a = VStr "" -> date_ge a b -> date_posted b = VStr "".
Proof.
  unfold date_ge. intros ->.
  destruct (date_posted b) as [|[]|z|t]; cbv [py_lt as_int];
    try discriminate.
  intros H. apply Ok_inj in H. apply empty_not_ltb in H. now subst.
Qed.

(** The sort raises only where dates of different kinds meet: when
    every date is a string it returns. *)
Lemma insert_desc_strings (x : listing) (l : list listing) :
  (exists s, date_posted x = VStr s) ->
  Forall (fun j => exists s, date_posted j = VStr s) l ->
  exists r, insert_desc x l = Ok r.
Proof.
  intros [s Hs] Hl. induction Hl as [|y l [t Ht] _ [r IH]]; simpl.
  - now exists [x].
  - rewrite Hs, Ht. cbv [py_lt]. cbn [bind].
    destruct (s <? t)%string; [|now eexists].
    rewrite IH. now eexists.
Qed.

Lemma sort_desc_strings (l : list listing) :
  Forall (fun j => exists s, date_posted j = VStr s) l ->
  exists r, sort_desc l = Ok r.
Proof.
  induction 1 as [|x l Hx Hl [r IH]]; simpl; [now exists []|].
  rewrite IH. cbn [bind]. apply insert_desc_strings; [exact Hx|].
  eapply Permutation_Forall; [apply sort_desc_perm; exact IH | exact Hl].
Qed.

End Sorting.

(** ** The run as one pass over its raw listings *)

Section Run.

#[local] Arguments fetch_jobs_for_query : simpl never.
#[local] Arguments process_search : simpl never.
#[local] Arguments process_job : simpl never.

Lemma process_results_app (c : Z) (a b : list entry) :
  forall st,
    process_results c st (a ++ b) =
    (st1 <- process_results c st a ;; process_results c st1 b).
Proof.
  induction a as [|e a IH]; intros st; simpl; [reflexivity|].
  destruct (process_job c st e); simpl; [apply IH | reflexivity].
Qed.

(** The accumulators pass from one search to the next: the searches of a
    run are one pass over the concatenation of their pages. *)
Lemma for_searches_raw (w : world) (c : Z) (l : list search) :
  forall st st',
    snd (for_searches w c st l) = Ok st' ->
    exists raw,
      raw_listings w l = Ok raw /\ process_results c st raw = Ok st'.
Proof.
  induction l as [|s l IH]; intros st st' H.
  - simpl in H. injection H as <-. now exists [].
  - rewrite snd_for_searches_cons, snd_process_search in H. simpl.
    destruct (snd (fetch_jobs_for_query _ _ _ _)) as [p|]; simpl in *;
      [|discriminate].
    destruct (py_len p); simpl in *; [|discriminate].
    destruct (iterate p) as [page|]; simpl in *; [|discriminate].
    destruct (process_results c st page) as [st1|] eqn:E1; simpl in H;
      [|discriminate].
    destruct (IH _ _ H) as (rest & -> & Hrest). simpl.
    exists (page ++ rest). split; [reflexivity|].
    now rewrite process_results_app, E1.
Qed.

Lemma all_jobs_grow_step (c : Z) (j : listing) (st : acc) (e : entry)
  (st' : acc) :
  In j (all_jobs st) -> process_job c st e = Ok st' -> In j (all_jobs st').
Proof.
  intros Hj H.
  apply process_job_Ok in H as [->|(job & j' & _ & -> & _)]; [assumption|].
  simpl. apply in_app_iff. now left.
Qed.

(** A run that wrote its file: the pass it made and what came of it. *)
Lemma written_run (w : world) (o : output) :
  file_written w = Some o ->
  exists raw st,
    raw_listings w SEARCHES = Ok raw /\
    process_results (cutoff_of w) empty_acc raw = Ok st /\
    sort_desc (all_jobs st) = Ok (jobs o).
Proof.
  intros H. apply main_written in H as (_ & st & Hst & Hsort & _).
  apply for_searches_raw in Hst as (raw & Hraw & Hpass).
  now exists raw, st.
Qed.

Lemma dedup_inv_empty : dedup_inv empty_acc.
Proof. split; simpl; [intros j []|constructor]. Qed.

Lemma recent_inv_empty (c : Z) : recent_inv c empty_acc.
Proof. intros j []. Qed.

Lemma truthy_inv_empty : truthy_inv empty_acc.
Proof. split; simpl; intros x []. Qed.

(** A listing whose identifier is already in the dedup set is skipped. *)
Lemma seen_is_skipped (c : Z) (st : acc) (job : dict) :
  set_mem (get job "job_id" (VStr "")) (seen_ids st) = true ->
  process_job c st (Listing job) = Ok st.
Proof.
  intros H. unfold process_job. rewrite H. now rewrite orb_true_r.
Qed.

End Run.

(** ** The claims *)

(** C1. The [id] values of the listings in the output are pairwise
    distinct (also as Python compares them), and the dedup set is shared
    by all searches: in the sequence of raw listings the run meets, page
    after page, a listing whose identifier equals that of a listing
    accepted earlier is discarded, and every listing accepted on the way
    is in the output. *)
Theorem output_ids_distinct (w : world) (o : output)
  (Hrun : file_written w = Some o) :
  NoDup (map id (jobs o)) /\
  NoDup (map (fun j => hash_key (id j)) (jobs o)) /\
  exists raw,
    raw_listings w SEARCHES = Ok raw /\
    forall pre job post st j,
      raw = pre ++ Listing job :: post ->
      process_results (cutoff_of w) empty_acc pre = Ok st ->
      In j (all_jobs st) ->
      py_eq (get job "job_id" (VStr "")) (id j) = true ->
      process_job (cutoff_of w) st (Listing job) = Ok st /\ In j (jobs o).
Proof.
  apply written_run in Hrun as (raw & fin & Hraw & Hpass & Hsort).
  assert (Hfin : dedup_inv fin).
  { eapply process_results_inv; [|apply dedup_inv_empty|exact Hpass].
    intros; eapply dedup_inv_step; eassumption. }
  assert (Hnd : NoDup (map (fun j => hash_key (id j)) (jobs o))).
  { eapply Permutation_NoDup; [|exact (proj2 Hfin)].
    apply Permutation_map. now apply sort_desc_perm. }
  split; [|split; [exact Hnd|]].
  - rewrite <- (map_map id hash_key) in Hnd. exact (NoDup_map_inv _ _ Hnd).
  - exists raw. split; [exact Hraw|].
    intros pre job post st j -> Hpre Hj Heq.
    assert (Hst : dedup_inv st).
    { eapply process_results_inv; [|apply dedup_inv_empty|exact Hpre].
      intros; eapply dedup_inv_step; eassumption. }
    split.
    + apply seen_is_skipped. apply set_mem_In.
      apply py_eq_hash_key in Heq. rewrite Heq.
      apply set_mem_In. now apply (proj1 Hst).
    + eapply Permutation_in; [apply sort_desc_perm; exact Hsort|].
      rewrite process_results_app, Hpre in Hpass. cbn [bind] in Hpass.
      revert Hpass. apply (process_results_inv (fun s => In j (all_jobs s))).
      * intros; eapply all_jobs_grow_step; eassumption.
      * exact Hj.
Qed.

Lemma output_ids_distinct_witness :
  NoDup (map id (jobs sample_output)).
Proof.
  apply (output_ids_distinct sample_world sample_output).
  vm_compute. reflexivity.
Defined.

Lemma too_old_stale (c : Z) (s : string) (dt : datetime) (t : Z) :
  fromisoformat (replace_char "Z" "+00:00" s) = Ok dt ->
  utc_micros dt = Some t -> t < c ->
  too_old (VStr s) c = Ok true.
Proof.
  intros Hdt Ht Hlt. unfold too_old.
  destruct (truthy (VStr s)) eqn:E.
  - rewrite Hdt. simpl. unfold datetime_lt. rewrite Ht. simpl.
    now rewrite (proj2 (Z.ltb_lt _ _) Hlt).
  - simpl in E. apply negb_false_iff, String.eqb_eq in E. subst.
    discriminate.
Qed.

Lemma too_old_is_skipped (c : Z) (st : acc) (job : dict) :
  too_old (get job "job_posted_at_datetime_utc" (VStr "")) c = Ok true ->
  process_job c st (Listing job) = Ok st.
Proof.
  intros H. unfold process_job. rewrite H.
  now destruct (negb _ || _).
Qed.

(** X20. Timestamps that carry an offset.  The cutoff is the start of the
    run minus 48 hours.  A raw listing whose timestamp parses (once ["Z"]
    is rewritten to ["+00:00"]) to a datetime with a UTC offset, and so to
    an instant, strictly before the cutoff is discarded; and every
    listing in the output whose [date_posted] parses carries an offset and
    denotes an instant that is not before the cutoff. *)
Theorem output_dates_recent (w : world) (o : output)
  (Hrun : file_written w = Some o) :
  cutoff_of w = clock_start w - 48 * 3600 * 1000000 /\
  (forall st job s dt t,
      get job "job_posted_at_datetime_utc" (VStr "") = VStr s ->
      fromisoformat (replace_char "Z" "+00:00" s) = Ok dt ->
      utc_micros dt = Some t ->
      t < cutoff_of w ->
      process_job (cutoff_of w) st (Listing job) = Ok st) /\
  (forall j s dt,
      In j (jobs o) ->
      date_posted j = VStr s ->
      fromisoformat (replace_char "Z" "+00:00" s) = Ok dt ->
      exists t, utc_micros dt = Some t /\ cutoff_of w <= t).
Proof.
  split; [reflexivity|]. split.
  - intros st job s dt t Hs Hdt Ht Hlt.
    apply too_old_is_skipped. rewrite Hs.
    eapply too_old_stale; eassumption.
  - apply written_run in Hrun as (raw & fin & _ & Hpass & Hsort).
    assert (Hfin : recent_inv (cutoff_of w) fin).
    { eapply process_results_inv; [|apply recent_inv_empty|exact Hpass].
      intros; eapply recent_inv_step; eassumption. }
    intros j s dt Hj Hs Hdt.
    refine (Hfin j _ s dt Hs Hdt).
    eapply Permutation_in; [|exact Hj].
    apply Permutation_sym. now apply sort_desc_perm.
Qed.

Lemma output_dates_recent_witness :
  process_job (cutoff_of sample_world) empty_acc
    (sample_job "J1" "2024-05-08T02:00:00.000Z") = Ok empty_acc
  /\ forall j s dt,
      In j (jobs sample_output) ->
      date_posted j = VStr s ->
      fromisoformat (replace_char "Z" "+00:00" s) = Ok dt ->
      exists t, utc_micros dt = Some t /\ cutoff_of sample_world <= t.
Proof.
  assert (Hrun : file_written sample_world = Some sample_output)
    by (vm_compute; reflexivity).
  destruct (output_dates_recent sample_world sample_output Hrun)
    as (_ & Hstale & Hout).
  split; [|exact Hout].
  eapply (Hstale empty_acc _ "2024-05-08T02:00:00.000Z").
  - reflexivity.
  - vm_compute. reflexivity.
  - vm_compute. reflexivity.
  - vm_compute. reflexivity.
Defined.

(** C2, as the code has it.  A timestamp that parses but carries no UTC
    offset is not discarded when it is earlier than the cutoff.  The
    listing here was posted on 2024-05-01 at 00:00:00 and the run starts
    on 2024-05-10 at 12:00 UTC, so the timestamp is before the cutoff of
    2024-05-08 12:00 UTC whatever offset is read into it, by more than a
    day.  [fromisoformat] gives a naive datetime, [posted_dt < cutoff]
    raises [TypeError], [except ValueError] does not catch it: the step
    does not return the accumulators unchanged, it raises, and the run
    ends in that exception without writing its file.  (The defect is the
    one of C3.) *)
Theorem stale_naive_timestamp_not_discarded :
  let dt := {| year := 2024; month := 5; day := 1; hour := 0; minute := 0;
               second := 0; microsecond := 0; utcoffset := None |} in
  fromisoformat (replace_char "Z" "+00:00" "2024-05-01T00:00:00") = Ok dt /\
  cutoff_of stale_naive_world = utc 2024 5 8 12 0 0 /\
  wall_micros dt + day_micros < cutoff_of stale_naive_world /\
  too_old (VStr "2024-05-01T00:00:00") (cutoff_of stale_naive_world)
  = Raise TypeError /\
  process_job (cutoff_of stale_naive_world) empty_acc stale_naive_job
  = Raise TypeError /\
  process_job (cutoff_of stale_naive_world) empty_acc stale_naive_job
  <> Ok empty_acc /\
  snd (main stale_naive_world) = Raise TypeError /\
  file_written stale_naive_world = None.
Proof. vm_compute. repeat split; try reflexivity. discriminate. Qed.

Lemma get_del (d : dict) (k : string) (default : value) :
  get (del d k) k default = default.
Proof.
  induction d as [|[k' v] d IH]; simpl; [reflexivity|].
  destruct (k' =? k)%string eqn:E; simpl; [assumption|].
  now rewrite E.
Qed.

Lemma get_present (d : dict) (k : string) (v a b : value) :
  get d k a = v -> v <> a -> get d k b = v.
Proof.
  induction d as [|[k' x] d IH]; simpl; [congruence|].
  destruct (k' =? k)%string; auto.
Qed.

Lemma falsy_id_is_skipped (c : Z) (st : acc) (job : dict) :
  truthy (get job "job_id" (VStr "")) = false ->
  process_job c st (Listing job) = Ok st.
Proof. intros H. unfold process_job. now rewrite H. Qed.

(** C10. A raw listing whose identifier member is present and equal to
    the empty string is handled as the same listing without the member:
    the step returns the accumulators as they were (nothing is appended,
    nothing is marked seen), whatever the other members hold; and in a
    run that writes its file no listing of the output has the empty
    identifier, nor is it in the dedup set at the end of the searches. *)
Theorem empty_identifier_discarded (c : Z) (st : acc) (job : dict)
  (Hempty : get job "job_id" VNone = VStr "") :
  process_job c st (Listing job) = Ok st /\
  get (del job "job_id") "job_id" VNone = VNone /\
  process_job c st (Listing job) =
    process_job c st (Listing (del job "job_id")) /\
  (forall w o j,
      file_written w = Some o -> In j (jobs o) -> id j <> VStr "") /\
  (forall w fin,
      snd (for_searches w (cutoff_of w) empty_acc SEARCHES) = Ok fin ->
      ~ In (VStr "") (seen_ids fin)).
Proof.
  assert (Hget : get job "job_id" (VStr "") = VStr "")
    by (eapply get_present; [exact Hempty | discriminate]).
  assert (H1 : process_job c st (Listing job) = Ok st)
    by (apply falsy_id_is_skipped; now rewrite Hget).
  split; [exact H1|]. split; [apply get_del|]. split.
  - rewrite H1. symmetry. apply falsy_id_is_skipped. now rewrite get_del.
  - split.
    + intros w o j Hrun Hj Hid.
      apply written_run in Hrun as (raw & fin & _ & Hpass & Hsort).
      assert (Hfin : truthy_inv fin).
      { eapply process_results_inv; [|apply truthy_inv_empty|exact Hpass].
        intros; eapply truthy_inv_step; eassumption. }
      assert (Hin : In j (all_jobs fin)).
      { eapply Permutation_in; [|exact Hj].
        apply Permutation_sym. now apply sort_desc_perm. }
      apply (proj1 Hfin) in Hin. rewrite Hid in Hin. discriminate.
    + intros w fin Hfin Hin.
      assert (Hinv : truthy_inv fin).
      { eapply for_searches_inv; [|apply truthy_inv_empty|exact Hfin].
        intros; eapply truthy_inv_step; eassumption. }
      apply (proj2 Hinv) in Hin. discriminate.
Qed.

Lemma empty_identifier_discarded_witness :
  process_job (cutoff_of sample_world) empty_acc
    (Listing [("job_id", VStr ""); ("job_title", VStr "Empty identifier")])
  = Ok empty_acc.
Proof.
  apply (empty_identifier_discarded (cutoff_of sample_world) empty_acc
           [("job_id", VStr ""); ("job_title", VStr "Empty identifier")]).
  reflexivity.
Defined.




(** C6. With no credential in the environment the run prints its error
    and exits with status 1: it sends no request and writes no file. *)
Theorem missing_credential_exits (w : world)
  (Hkey : RAPIDAPI_KEY w = None) :
  main w = ([Print MsgNoKey], Raise (SystemExit 1)) /\
  exit_status (snd (main w)) <> 0 /\
  existsb is_request (fst (main w)) = false /\
  existsb is_write (fst (main w)) = false /\
  file_written w = None.
Proof.
  assert (H : main w = ([Print MsgNoKey], Raise (SystemExit 1))).
  { unfold main, API_KEY. rewrite Hkey. reflexivity. }
  unfold file_written. rewrite H. simpl. repeat split; try reflexivity.
  discriminate.
Qed.

Lemma missing_credential_exits_witness :
  main keyless_world = ([Print MsgNoKey], Raise (SystemExit 1)).
Proof.
  apply (missing_credential_exits keyless_world). reflexivity.
Defined.

Section Fetch.

#[local] Arguments process_search : simpl never.

Lemma snd_fetch (w : world) (q loc : string) (rem : bool) :
  snd (fetch_jobs_for_query w q loc rem) =
  match urlopen w (make_request w q loc rem) with
  | Body (Some (JObject (Some p))) => Ok p
  | Body (Some (JObject None)) => Ok (PList [])
  | Body (Some JOther) => Raise AttributeError
  | Body None => Raise ValueError
  | Fails e => if caught e then Ok (PList []) else Raise e
  end.
Proof.
  unfold fetch_jobs_for_query. rewrite snd_io_bind. simpl.
  destruct (urlopen w _) as [[]|[[[p|]|]|]]; reflexivity.
Qed.

(** A search whose fetch raises stops the loop, there or before. *)
Lemma for_searches_raises (w : world) (c : Z) (s : search) (l : list search) :
  In s l ->
  (forall st, exists e, snd (process_search w c st s) = Raise e) ->
  forall st, exists e, snd (for_searches w c st l) = Raise e.
Proof.
  intros Hin Hs. induction l as [|s' l IH]; intros st; [destruct Hin|].
  rewrite snd_for_searches_cons.
  destruct (snd (process_search w c st s')) as [st1|e] eqn:E; simpl.
  - destruct Hin as [->|Hin]; [|now apply IH].
    destruct (Hs st) as [e He]. congruence.
  - now exists e.
Qed.

(** The loop depends on the world through what the fetches return. *)
Lemma for_searches_ext (w w' : world) (c : Z) (l : list search) :
  (forall s, In s l ->
     snd (fetch_jobs_for_query w (query s) (location s) (remote s)) =
     snd (fetch_jobs_for_query w' (query s) (location s) (remote s))) ->
  forall st, snd (for_searches w c st l) = snd (for_searches w' c st l).
Proof.
  induction l as [|s l IH]; intros H st; [reflexivity|].
  rewrite !snd_for_searches_cons, !snd_process_search.
  rewrite (H s (or_introl eq_refl)).
  destruct (snd (fetch_jobs_for_query w' _ _ _)) as [p|]; simpl;
    [|reflexivity].
  destruct (py_len p); simpl; [|reflexivity].
  destruct (iterate p) as [page|]; simpl; [|reflexivity].
  destruct (process_results c st page); simpl; [|reflexivity].
  apply IH. intros s' Hs'. apply H. now right.
Qed.

(** The file and the result of a run, from the result of its loop. *)
Lemma main_outcome (w : world) :
  truthy (VStr (API_KEY w)) = true ->
  (file_written w, snd (main w)) =
  match snd (for_searches w (cutoff_of w) empty_acc SEARCHES) with
  | Ok st =>
    match sort_desc (all_jobs st) with
    | Ok sorted =>
      (Some {| last_updated := clock_end w;
               job_count := List.length sorted;
               jobs := sorted |}, Ok tt)
    | Raise e => (None, Raise e)
    end
  | Raise e => (None, Raise e)
  end.
Proof.
  intros Hk. unfold file_written, main. rewrite Hk.
  pose proof (for_searches_no_write w (cutoff_of w) SEARCHES empty_acc) as Hn.
  apply existsb_last_write in Hn.
  destruct (for_searches w (cutoff_of w) empty_acc SEARCHES) as [t [st|e]];
    cbn [negb io_bind fst snd] in *; [|now rewrite Hn].
  destruct (sort_desc (all_jobs st)) as [sorted|e]; simpl.
  - rewrite last_write_app. reflexivity.
  - rewrite app_nil_r. now rewrite Hn.
Qed.

Lemma request_eqb_eq (a b : request) : request_eqb a b = true <-> a = b.
Proof.
  unfold request_eqb. destruct a as [q1 f1 l1 k1 h1], b as [q2 f2 l2 k2 h2].
  simpl. rewrite !andb_true_iff, !String.eqb_eq. split.
  - intros [[[[-> ->] Hl] ->] ->]. f_equal.
    destruct l1, l2; try discriminate; [|reflexivity].
    apply String.eqb_eq in Hl. now subst.
  - intros H. injection H as -> -> -> -> ->. repeat split.
    destruct l2; [apply String.eqb_refl | reflexivity].
Qed.

End Fetch.

(** C9. The handlers of the fetch step cover failures of the network
    layer only.  A 2xx body that is not JSON raises [ValueError] and a
    JSON body whose top-level value is not an object raises
    [AttributeError]; neither is caught, the fetch does not return the
    empty sequence, the search raises whatever the accumulators, and a
    run that holds a credential and meets such a body in one of its
    searches ends in an exception without writing its file. *)
Theorem malformed_body_not_suppressed (w : world) (s : search)
  (Hbody : urlopen w (request_of w s) = Body None \/
           urlopen w (request_of w s) = Body (Some JOther)) :
  (urlopen w (request_of w s) = Body None ->
   snd (fetch_jobs_for_query w (query s) (location s) (remote s))
   = Raise ValueError) /\
  (urlopen w (request_of w s) = Body (Some JOther) ->
   snd (fetch_jobs_for_query w (query s) (location s) (remote s))
   = Raise AttributeError) /\
  snd (fetch_jobs_for_query w (query s) (location s) (remote s))
  <> Ok (PList []) /\
  (forall c st, exists e, snd (process_search w c st s) = Raise e) /\
  (In s SEARCHES -> truthy (VStr (API_KEY w)) = true ->
   file_written w = None /\ exists e, snd (main w) = Raise e).
Proof.
  unfold request_of in *.
  assert (Hfetch : exists e,
    snd (fetch_jobs_for_query w (query s) (location s) (remote s))
    = Raise e).
  { rewrite snd_fetch. destruct Hbody as [-> | ->]; eauto. }
  assert (Hsearch : forall c st,
    exists e, snd (process_search w c st s) = Raise e).
  { intros c st. rewrite snd_process_search.
    destruct Hfetch as [e ->]. now exists e. }
  split; [|split; [|split; [|split]]].
  - intros H. rewrite snd_fetch, H. reflexivity.
  - intros H. rewrite snd_fetch, H. reflexivity.
  - destruct Hfetch as [e ->]. discriminate.
  - exact Hsearch.
  - intros Hin Hk.
    destruct (for_searches_raises w (cutoff_of w) s SEARCHES Hin
                (Hsearch (cutoff_of w)) empty_acc) as [e He].
    destruct (main_raises w e Hk He) as [Hm Hf].
    split; [exact Hf|]. now exists e.
Qed.

Lemma malformed_body_not_suppressed_witness :
  file_written garbled_world = None /\
  exists e, snd (main garbled_world) = Raise e.
Proof.
  refine (proj2 (proj2 (proj2 (proj2
    (malformed_body_not_suppressed garbled_world
       {| query := "brand director femtech";
          location := "United States"; remote := true |} _)))) _ _).
  - left. reflexivity.
  - vm_compute. tauto.
  - reflexivity.
Defined.

Lemma request_of_key (w w' : world) (s : search) :
  RAPIDAPI_KEY w' = RAPIDAPI_KEY w -> request_of w' s = request_of w s.
Proof.
  intros H. unfold request_of, make_request, API_KEY. now rewrite H.
Qed.

Lemma main_ext (w w' : world) :
  RAPIDAPI_KEY w' = RAPIDAPI_KEY w ->
  clock_start w' = clock_start w ->
  clock_end w' = clock_end w ->
  (forall s,
     snd (fetch_jobs_for_query w (query s) (location s) (remote s)) =
     snd (fetch_jobs_for_query w' (query s) (location s) (remote s))) ->
  file_written w = file_written w' /\ snd (main w) = snd (main w').
Proof.
  intros Hk Hs He Hf.
  assert (Hkey : API_KEY w' = API_KEY w) by (unfold API_KEY; now rewrite Hk).
  destruct (truthy (VStr (API_KEY w))) eqn:Ht.
  - assert (Ht' : truthy (VStr (API_KEY w')) = true) by now rewrite Hkey.
    pose proof (main_outcome w Ht) as H.
    pose proof (main_outcome w' Ht') as H'.
    assert (Hc : cutoff_of w' = cutoff_of w)
      by (unfold cutoff_of; now rewrite Hs).
    rewrite Hc, He in H'.
    rewrite <- (for_searches_ext w w' (cutoff_of w) SEARCHES
                  (fun s _ => Hf s) empty_acc) in H'.
    rewrite <- H' in H. now inversion H.
  - unfold file_written, main. rewrite Hkey, Ht. now split.
Qed.

Lemma StronglySorted_after {A : Type} (R : A -> A -> Prop)
  (l1 : list A) (a : A) (l2 : list A) :
  StronglySorted R (l1 ++ a :: l2) -> Forall (R a) l2.
Proof.
  induction l1 as [|x l1 IH]; simpl; intros H;
    apply StronglySorted_inv in H as [H1 H2]; auto.
Qed.

(** C5. The jobs of the output are the accepted listings, rearranged
    (nothing lost, nothing added) into non-increasing order of
    [date_posted]: no listing is followed by one with a greater date, as
    strings are compared; listings with equal dates keep the order in
    which they were accepted; and the empty date, the least string, puts
    its listings last. *)
Theorem output_sorted_by_date_descending (w : world) (o : output)
  (Hrun : file_written w = Some o) :
  exists raw st,
    raw_listings w SEARCHES = Ok raw /\
    process_results (cutoff_of w) empty_acc raw = Ok st /\
    Permutation (all_jobs st) (jobs o) /\
    StronglySorted date_ge (jobs o) /\
    (forall l1 a l2 b l3 s t,
        jobs o = l1 ++ a :: l2 ++ b :: l3 ->
        date_posted a = VStr s -> date_posted b = VStr t ->
        (t <=? s)%string = true) /\
    (forall k,
        filter (fun j => py_eq (date_posted j) k) (jobs o) =
        filter (fun j => py_eq (date_posted j) k) (all_jobs st)) /\
    (forall l1 a l2 b,
        jobs o = l1 ++ a :: l2 -> date_posted a = VStr "" -> In b l2 ->
        date_posted b = VStr "").
Proof.
  apply written_run in Hrun as (raw & st & Hraw & Hpass & Hsort).
  exists raw, st.
  pose proof (sort_desc_sorted _ _ Hsort) as Hsorted.
  repeat (split; [first [exact Hraw | exact Hpass | exact Hsorted
                         | now apply sort_desc_perm] |]).
  split; [|split].
  - intros l1 a l2 b l3 s t Ho Ha Hb. rewrite Ho in Hsorted.
    apply StronglySorted_after in Hsorted.
    rewrite Forall_forall in Hsorted.
    apply (date_ge_strings a b s t Ha Hb), Hsorted.
    apply in_app_iff. right. now left.
  - intros k. now apply sort_desc_stable.
  - intros l1 a l2 b Ho Ha Hb. rewrite Ho in Hsorted.
    apply StronglySorted_after in Hsorted.
    rewrite Forall_forall in Hsorted.
    exact (date_ge_empty a b Ha (Hsorted b Hb)).
Qed.

Lemma output_sorted_by_date_descending_witness :
  map date_posted (jobs sample_output) =
    [VStr "yesterday"; VStr "2024-05-10T02:00:00.000Z";
     VStr "2024-05-09T12:00:00.000Z"; VStr "2024-05-09T02:00:00+02:00";
     VStr ""] /\
  StronglySorted date_ge (jobs sample_output).
Proof.
  split; [reflexivity|].
  destruct (output_sorted_by_date_descending sample_world sample_output)
    as (raw & st & _ & _ & _ & Hsorted & _).
  - vm_compute. reflexivity.
  - exact Hsorted.
Defined.

(** C3, as the code has it.  A timestamp without a UTC offset parses to a
    naive datetime; comparing it with the cutoff raises [TypeError], which
    [except ValueError] does not catch: the step raises, and the run ends
    in that exception without writing its file.  A timestamp that does
    not parse is taken as recent. *)
Theorem naive_timestamp_aborts_run :
  fromisoformat (replace_char "Z" "+00:00" "2024-05-10T02:00:00")
  = Ok {| year := 2024; month := 5; day := 10; hour := 2; minute := 0;
          second := 0; microsecond := 0; utcoffset := None |} /\
  too_old (VStr "2024-05-10T02:00:00") (cutoff_of naive_world)
  = Raise TypeError /\
  process_job (cutoff_of naive_world) empty_acc naive_job
  = Raise TypeError /\
  snd (main naive_world) = Raise TypeError /\
  file_written naive_world = None /\
  too_old (VStr "yesterday") (cutoff_of naive_world) = Ok false.
Proof. vm_compute. repeat split; reflexivity. Qed.

Lemma float_of_int_exact (z : Z) :
  Z.abs z < 2 ^ 53 -> float_of_int z = Ok z.
Proof.
  intros H. unfold float_of_int.
  assert (Hb : Z.log2 (Z.abs z) + 1 <= 53).
  { destruct (Z.eq_dec (Z.abs z) 0) as [E|E].
    - rewrite E. simpl. lia.
    - assert (Z.log2 (Z.abs z) < 53); [|lia].
      apply Z.log2_lt_pow2; lia. }
  apply Z.leb_le in Hb. cbv zeta. now rewrite Hb.
Qed.

Lemma format_f0_exact (z : Z) :
  Z.abs z < 2 ^ 53 -> format_f0 (VInt z) = Ok (commas z).
Proof.
  intros H. unfold format_f0. cbn [as_int].
  now rewrite (float_of_int_exact z H).
Qed.

(** C4, as stated: the precedence goes by which bounds are present.  It
    fails for a minimum of zero next to a maximum: the code writes
    ["Up to $120,000"], not ["$0 - $120,000"]. *)
Lemma salary_by_presence_fails :
  ~ (forall (job : dict) (lo hi : option Z) (period : option string),
        get job "job_min_salary" VNone = number_field lo ->
        get job "job_max_salary" VNone = number_field hi ->
        get job "job_salary_period" (VStr "") = label_field period ->
        salary_text job = Ok (salary_by_presence lo hi period)).
Proof.
  intros H.
  specialize (H [("job_min_salary", VInt 0); ("job_max_salary", VInt 120000)]
                (Some 0) (Some 120000) None eq_refl eq_refl eq_refl).
  vm_compute in H. discriminate H.
Qed.

(** C4, amended.  The salary text follows the stated precedence with a
    bound counted as present when it is not null and not zero, and a
    period label when it is not empty; bounds below 2^53 in magnitude
    are written exactly, as whole numbers with thousands separators.  So
    80000, 120000 and ["year"] give ["$80,000 - $120,000 (year)"], 80000
    alone gives ["From $80,000"], and no bound gives the empty text. *)
Theorem salary_text_by_truthiness
  (job : dict) (lo hi : option Z) (period : option string)
  (Hlo : get job "job_min_salary" VNone = number_field lo)
  (Hhi : get job "job_max_salary" VNone = number_field hi)
  (Hperiod : get job "job_salary_period" (VStr "") = label_field period)
  (Blo : forall z, lo = Some z -> Z.abs z < 2 ^ 53)
  (Bhi : forall z, hi = Some z -> Z.abs z < 2 ^ 53) :
  salary_text job =
    Ok (salary_by_presence (nonzero lo) (nonzero hi) (nonempty period)) /\
  salary_by_presence (Some 80000) (Some 120000) (Some "year")
    = "$80,000 - $120,000 (year)" /\
  salary_by_presence (Some 80000) None None = "From $80,000" /\
  salary_by_presence None (Some 120000) None = "Up to $120,000" /\
  salary_by_presence None None None = "".
Proof.
  split; [|vm_compute; repeat split; reflexivity].
  unfold salary_text. rewrite Hlo, Hhi, Hperiod.
  assert (Hfmt : forall o z, (forall x, o = Some x -> Z.abs x < 2 ^ 53) ->
            o = Some z -> format_f0 (VInt z) = Ok (commas z))
    by (intros o z B E; apply format_f0_exact; eauto).
  destruct lo as [a|], hi as [b|]; cbn [number_field truthy nonzero andb].
  - rewrite (Hfmt _ a Blo eq_refl), (Hfmt _ b Bhi eq_refl).
    destruct (a =? 0), (b =? 0); cbn [negb andb bind salary_by_presence];
      try reflexivity.
    destruct period as [p|]; cbn [label_field truthy nonempty py_str].
    + destruct (p =? "")%string; reflexivity.
    + reflexivity.
  - rewrite (Hfmt _ a Blo eq_refl).
    destruct (a =? 0); reflexivity.
  - rewrite (Hfmt _ b Bhi eq_refl).
    destruct (b =? 0); reflexivity.
  - reflexivity.
Qed.

Lemma salary_text_by_truthiness_witness :
  salary_text [("job_min_salary", VInt 80000);
               ("job_max_salary", VInt 120000);
               ("job_salary_period", VStr "year")]
  = Ok "$80,000 - $120,000 (year)" /\
  salary_text [("job_min_salary", VInt 0);
               ("job_max_salary", VInt 120000)]
  = Ok "Up to $120,000".
Proof.
  split.
  - refine (proj1 (salary_text_by_truthiness _ (Some 80000) (Some 120000)
                     (Some "year") _ _ _ _ _)); try reflexivity.
    + intros z E. injection E as <-. vm_compute. reflexivity.
    + intros z E. injection E as <-. vm_compute. reflexivity.
  - refine (proj1 (salary_text_by_truthiness _ (Some 0) (Some 120000)
                     None _ _ _ _ _)); try reflexivity.
    + intros z E. injection E as <-. vm_compute. reflexivity.
    + intros z E. injection E as <-. vm_compute. reflexivity.
Defined.

(** * Further properties *)

(** ** The run as a whole *)

Section WholeRun.

#[local] Arguments fetch_jobs_for_query : simpl never.
#[local] Arguments process_search : simpl never.
#[local] Arguments process_job : simpl never.

Lemma process_results_length (c : Z) (l : list entry) :
  forall st st',
    process_results c st l = Ok st' ->
    (List.length (all_jobs st') <= List.length (all_jobs st) + List.length l)%nat.
Proof.
  induction l as [|e l IH]; simpl; intros st st' H.
  - injection H as <-. lia.
  - destruct (process_job c st e) as [st1|] eqn:E; simpl in H; [|discriminate].
    apply IH in H.
    apply process_job_Ok in E as [->|(job & j & _ & -> & _)]; simpl in *.
    + lia.
    + rewrite length_app in H. simpl in H. lia.
Qed.

Lemma fetch_paced (w : world) (q loc : string) (rem : bool) :
  filter is_paced (fst (fetch_jobs_for_query w q loc rem)) =
  [UrlOpen (make_request w q loc rem)].
Proof.
  unfold fetch_jobs_for_query. rewrite fst_io_bind. simpl.
  destruct (urlopen w _) as [[]|[[[p|]|]|]]; reflexivity.
Qed.

Lemma fst_process_search_paced (w : world) (c : Z) (st : acc) (s : search) :
  filter is_paced (fst (process_search w c st s)) =
  UrlOpen (request_of w s) ::
  match (p <- snd (fetch_jobs_for_query w (query s) (location s) (remote s)) ;;
         py_len p) with
  | Ok _ => [Sleep 2]
  | Raise _ => []
  end.
Proof.
  unfold process_search.
  rewrite !fst_io_bind. cbn [fst snd emit app filter is_paced].
  rewrite filter_app, fetch_paced. fold (request_of w s).
  destruct (snd (fetch_jobs_for_query _ _ _ _)) as [p|e]; cbn [bind];
    [|reflexivity].
  rewrite fst_io_bind. cbn [fst snd lift app].
  destruct (py_len p) as [n|e]; reflexivity.
Qed.

Lemma process_search_paced (w : world) (c : Z) (st : acc) (s : search) :
  prefix (filter is_paced (fst (process_search w c st s))) (schedule w [s]) /\
  (forall st', snd (process_search w c st s) = Ok st' ->
     filter is_paced (fst (process_search w c st s)) = schedule w [s]).
Proof.
  rewrite fst_process_search_paced, snd_process_search.
  destruct (snd (fetch_jobs_for_query _ _ _ _)) as [p|e]; cbn [bind].
  - destruct (py_len p) as [n|e]; cbn [bind].
    + split; [now exists []|reflexivity].
    + split; [now exists [Sleep 2]|discriminate].
  - split; [now exists [Sleep 2]|discriminate].
Qed.

Lemma for_searches_paced (w : world) (c : Z) (l : list search) :
  forall st,
    prefix (filter is_paced (fst (for_searches w c st l))) (schedule w l) /\
    (forall st', snd (for_searches w c st l) = Ok st' ->
       filter is_paced (fst (for_searches w c st l)) = schedule w l).
Proof.
  induction l as [|s l IH]; intros st.
  - simpl. split; [now exists []|reflexivity].
  - rewrite snd_for_searches_cons. cbn [for_searches].
    rewrite fst_io_bind, filter_app.
    destruct (process_search_paced w c st s) as [[rest Hp] He].
    destruct (snd (process_search w c st s)) as [st1|e] eqn:E; cbn [bind].
    + rewrite (He _ eq_refl).
      destruct (IH st1) as [[rest' Hp'] He']. split.
      * exists rest'. change (schedule w (s :: l))
          with (schedule w [s] ++ schedule w l).
        rewrite Hp' at 1. now rewrite app_assoc.
      * intros st' H. rewrite (He' _ H). reflexivity.
    + split; [|discriminate].
      exists (rest ++ schedule w l). cbn [filter]. rewrite app_nil_r.
      change (schedule w (s :: l)) with (schedule w [s] ++ schedule w l).
      rewrite Hp. now rewrite app_assoc.
Qed.

Lemma main_trace (w : world) :
  truthy (VStr (API_KEY w)) = true ->
  fst (main w) =
  fst (for_searches w (cutoff_of w) empty_acc SEARCHES) ++
  match snd (for_searches w (cutoff_of w) empty_acc SEARCHES) with
  | Ok st =>
    match sort_desc (all_jobs st) with
    | Ok sorted =>
      [WriteFile "jobs.json"
         {| last_updated := clock_end w;
            job_count := List.length sorted;
            jobs := sorted |};
       Print (MsgDone (List.length sorted))]
    | Raise _ => []
    end
  | Raise _ => []
  end.
Proof.
  intros Hk. unfold main. rewrite Hk. cbn [negb].
  rewrite fst_io_bind. f_equal.
  destruct (snd (for_searches _ _ _ _)) as [st|]; [|reflexivity].
  rewrite fst_io_bind. cbn [lift fst snd app].
  destruct (sort_desc (all_jobs st)); reflexivity.
Qed.

End WholeRun.

(** X1. A run leaves [jobs.json] behind exactly when it ends without an
    exception: a run that raises has written nothing.  The file of a run
    counts its jobs ([job_count] is the length of [jobs]), carries the
    clock read at the end, and holds no more jobs than the searches
    returned raw listings. *)
Theorem file_written_iff_run_completes (w : world) :
  (snd (main w) = Ok tt <-> exists o, file_written w = Some o) /\
  (forall e, snd (main w) = Raise e -> file_written w = None) /\
  (forall o,
      file_written w = Some o ->
      job_count o = List.length (jobs o) /\
      last_updated o = clock_end w /\
      exists raw,
        raw_listings w SEARCHES = Ok raw /\
        (job_count o <= List.length raw)%nat).
Proof.
  assert (Hdone : forall o, file_written w = Some o ->
            snd (main w) = Ok tt /\
            job_count o = List.length (jobs o) /\
            last_updated o = clock_end w /\
            exists raw,
              raw_listings w SEARCHES = Ok raw /\
              (job_count o <= List.length raw)%nat).
  { intros o H.
    destruct (main_written w o H) as (_ & st & Hst & Hsort & Hc & Hu & Hm).
    repeat (split; [assumption|]).
    apply for_searches_raw in Hst as (raw & Hraw & Hpass).
    exists raw. split; [exact Hraw|].
    rewrite Hc, <- (Permutation_length (sort_desc_perm _ _ Hsort)).
    apply process_results_length in Hpass. simpl in Hpass. lia. }
  assert (Hok : snd (main w) = Ok tt -> exists o, file_written w = Some o).
  { intros H. destruct (truthy (VStr (API_KEY w))) eqn:Hk.
    - pose proof (main_outcome w Hk) as Ho. rewrite H in Ho.
      destruct (snd (for_searches _ _ _ _)) as [st|]; [|now inversion Ho].
      destruct (sort_desc (all_jobs st)); inversion Ho; eauto.
    - unfold main in H. rewrite Hk in H. discriminate. }
  split; [split; [exact Hok|]|split].
  - intros [o H]. exact (proj1 (Hdone o H)).
  - intros e He. destruct (file_written w) as [o|] eqn:Hf; [|reflexivity].
    destruct (Hdone o eq_refl) as [H _]. congruence.
  - intros o H. exact (proj2 (Hdone o H)).
Qed.

Lemma file_written_iff_run_completes_witness :
  job_count sample_output = List.length (jobs sample_output) /\
  last_updated sample_output = clock_end sample_world /\
  exists raw,
    raw_listings sample_world SEARCHES = Ok raw /\
    (job_count sample_output <= List.length raw)%nat.
Proof.
  apply (file_written_iff_run_completes sample_world).
  vm_compute. reflexivity.
Defined.

(** X2. Requests go out in the order of [SEARCHES], each with the key and
    the host in its headers, and each followed by a pause of two seconds
    before the next: the requests and pauses of any run are a beginning
    of that schedule, and the whole of it when the run ends without an
    exception.  No run sends more than one request for a search. *)
Theorem requests_follow_schedule (w : world) :
  prefix (filter is_paced (fst (main w))) (schedule w SEARCHES) /\
  (snd (main w) = Ok tt ->
   filter is_paced (fst (main w)) = schedule w SEARCHES) /\
  (forall r, In (UrlOpen r) (fst (main w)) ->
     rq_key r = API_KEY w /\ rq_host r = API_HOST /\
     exists s, In s SEARCHES /\ r = request_of w s) /\
  (List.length (filter is_request (fst (main w))) <= 8)%nat.
Proof.
  assert (Hpre : prefix (filter is_paced (fst (main w)))
                   (schedule w SEARCHES) /\
                 (snd (main w) = Ok tt ->
                  filter is_paced (fst (main w)) = schedule w SEARCHES)).
  { destruct (truthy (VStr (API_KEY w))) eqn:Hk.
    - rewrite (main_trace w Hk), filter_app.
      pose proof (main_outcome w Hk) as Ho.
      destruct (for_searches_paced w (cutoff_of w) SEARCHES empty_acc)
        as [Hp He].
      destruct (snd (for_searches _ _ _ _)) as [st|e].
      + rewrite (He _ eq_refl).
        destruct (sort_desc (all_jobs st)); cbn [filter is_paced];
          rewrite app_nil_r; (split; [now exists []|reflexivity]).
      + cbn [filter]. rewrite app_nil_r. split; [exact Hp|].
        intros H. rewrite H in Ho. now inversion Ho.
    - unfold main. rewrite Hk. simpl.
      split; [now exists (schedule w SEARCHES)|discriminate]. }
  destruct Hpre as [[rest Hp] He].
  split; [now exists rest|]. split; [exact He|].
  assert (Hin : forall r, In (UrlOpen r) (fst (main w)) ->
            exists s, In s SEARCHES /\ r = request_of w s).
  { intros r Hr.
    assert (H : In (UrlOpen r) (schedule w SEARCHES)).
    { rewrite Hp. apply in_app_iff. left.
      apply filter_In. now split. }
    unfold schedule in H. apply in_flat_map in H as (s & Hs & Hr').
    exists s. split; [exact Hs|].
    destruct Hr' as [Hr'|[Hr'|[]]]; [congruence|discriminate]. }
  split.
  - intros r Hr. destruct (Hin r Hr) as (s & Hs & ->).
    repeat split; eauto.
  - assert (Hlen : List.length (filter is_request (schedule w SEARCHES)) = 8%nat)
      by reflexivity.
    assert (Hf : forall t, filter is_request (filter is_paced t)
                           = filter is_request t).
    { induction t as [|[] t IH]; simpl; congruence. }
    rewrite <- Hf, <- Hlen, Hp, filter_app, length_app. lia.
Qed.

Lemma requests_follow_schedule_witness :
  filter is_paced (fst (main sample_world)) = schedule sample_world SEARCHES.
Proof.
  apply (requests_follow_schedule sample_world).
  vm_compute. reflexivity.
Defined.

(** ** The answers of the API *)

(** X3. An exception of the network layer that neither handler names
    (an [HTTPException] such as an incomplete read, say) leaves the
    fetch as it is, stops the search whatever the accumulators hold, and
    a run that holds a credential and meets it in one of its searches
    ends in an exception without writing its file. *)
Theorem uncaught_exception_propagates (w : world) (s : search) (e : exn)
  (Hfail : urlopen w (request_of w s) = Fails e)
  (Huncaught : caught e = false) :
  snd (fetch_jobs_for_query w (query s) (location s) (remote s)) = Raise e /\
  (forall c st, snd (process_search w c st s) = Raise e) /\
  (In s SEARCHES -> truthy (VStr (API_KEY w)) = true ->
   file_written w = None /\ exists e', snd (main w) = Raise e').
Proof.
  assert (Hfetch :
    snd (fetch_jobs_for_query w (query s) (location s) (remote s))
    = Raise e).
  { rewrite snd_fetch. unfold request_of in Hfail.
    now rewrite Hfail, Huncaught. }
  assert (Hsearch : forall c st, snd (process_search w c st s) = Raise e).
  { intros c st. now rewrite snd_process_search, Hfetch. }
  split; [exact Hfetch|]. split; [exact Hsearch|].
  intros Hin Hk.
  destruct (for_searches_raises w (cutoff_of w) s SEARCHES Hin
              (fun st => ex_intro _ e (Hsearch (cutoff_of w) st)) empty_acc)
    as [e' He'].
  destruct (main_raises w e' Hk He') as [Hm Hf].
  split; [exact Hf|]. now exists e'.
Qed.

Lemma uncaught_exception_propagates_witness :
  file_written (constant_world (Fails HTTPException)) = None /\
  exists e', snd (main (constant_world (Fails HTTPException))) = Raise e'.
Proof.
  refine (proj2 (proj2
    (uncaught_exception_propagates (constant_world (Fails HTTPException))
       {| query := "brand director femtech";
          location := "United States"; remote := true |}
       HTTPException _ _)) _ _).
  - reflexivity.
  - reflexivity.
  - vm_compute. tauto.
  - reflexivity.
Defined.

(** X4. What [data.get("data", [])] may hold.  A JSON object without a
    ["data"] member is a search without results.  A ["data"] that is
    null, a number or a boolean raises [TypeError] at [len(results)]; a
    non-empty string or object under ["data"] raises [AttributeError] at
    the first [job.get], an empty one yields nothing; a list is processed
    element by element, and an element that is not an object raises
    [AttributeError] once the elements before it are done. *)
Theorem data_member_shapes (w : world) (s : search) (c : Z) (st : acc) :
  (urlopen w (request_of w s) = Body (Some (JObject None)) ->
   snd (process_search w c st s) = Ok st) /\
  (forall v,
      urlopen w (request_of w s) = Body (Some (JObject (Some (PValue v)))) ->
      (forall t, v <> VStr t) ->
      snd (process_search w c st s) = Raise TypeError) /\
  (forall t,
      urlopen w (request_of w s)
      = Body (Some (JObject (Some (PValue (VStr t))))) ->
      snd (process_search w c st s) =
      if (t =? "")%string then Ok st else Raise AttributeError) /\
  (forall keys,
      urlopen w (request_of w s) = Body (Some (JObject (Some (PDict keys)))) ->
      snd (process_search w c st s) =
      match keys with [] => Ok st | _ => Raise AttributeError end) /\
  (forall l,
      urlopen w (request_of w s) = Body (Some (JObject (Some (PList l)))) ->
      snd (process_search w c st s) = process_results c st l) /\
  (forall l1 l2,
      process_results c st (l1 ++ NotAnObject :: l2) =
      match process_results c st l1 with
      | Ok _ => Raise AttributeError
      | Raise e => Raise e
      end).
Proof.
  unfold request_of.
  repeat split.
  - intros H. now rewrite snd_process_search, snd_fetch, H.
  - intros v H Hv. rewrite snd_process_search, snd_fetch, H.
    destruct v as [| | |t]; try reflexivity. now destruct (Hv t).
  - intros t H. rewrite snd_process_search, snd_fetch, H.
    destruct t; reflexivity.
  - intros keys H. rewrite snd_process_search, snd_fetch, H.
    destruct keys; reflexivity.
  - intros l H. rewrite snd_process_search, snd_fetch, H. reflexivity.
  - intros l1 l2. rewrite process_results_app.
    destruct (process_results c st l1); reflexivity.
Qed.

Lemma data_member_shapes_witness :
  let w := constant_world (Body (Some (JObject (Some (PValue VNone))))) in
  let s := {| query := "brand director femtech";
              location := "United States"; remote := true |} in
  snd (process_search w (cutoff_of w) empty_acc s) = Raise TypeError /\
  snd (main w) = Raise TypeError.
Proof.
  intros w s. split; [|vm_compute; reflexivity].
  refine (proj1 (proj2 (data_member_shapes w s (cutoff_of w) empty_acc))
            VNone _ _).
  - reflexivity.
  - discriminate.
Defined.

(** ** The recency check *)

(** The record of an accepted listing is the one of lines 109-120. *)
Lemma process_job_accepts (c : Z) (st : acc) (job : dict)
  (sal : string) (desc : value) :
  truthy (get job "job_id" (VStr "")) = true ->
  set_mem (get job "job_id" (VStr "")) (seen_ids st) = false ->
  too_old (get job "job_posted_at_datetime_utc" (VStr "")) c = Ok false ->
  salary_text job = Ok sal ->
  snippet (get job "job_description" (VStr "")) = Ok desc ->
  process_job c st (Listing job) =
    Ok {| all_jobs := all_jobs st ++ [build_listing job sal desc];
          seen_ids := set_add (get job "job_id" (VStr "")) (seen_ids st) |}.
Proof.
  intros Hid Hseen Hold Hsal Hdesc.
  unfold process_job. rewrite Hid, Hseen, Hold, Hsal, Hdesc. reflexivity.
Qed.

Lemma process_job_passes (c : Z) (st : acc) (job : dict) (e : exn) :
  truthy (get job "job_id" (VStr "")) = true ->
  set_mem (get job "job_id" (VStr "")) (seen_ids st) = false ->
  too_old (get job "job_posted_at_datetime_utc" (VStr "")) c = Raise e ->
  process_job c st (Listing job) = Raise e.
Proof.
  intros Hid Hseen Hold.
  unfold process_job. now rewrite Hid, Hseen, Hold.
Qed.

(** X5. For a timestamp that parses (after ["Z"] is rewritten) to a
    datetime with a UTC offset, the check compares instants: the wall
    clock reading less the offset against the cutoff.  The listing is
    too old exactly when its instant is strictly before the cutoff, so a
    listing posted at the very cutoff is kept. *)
Theorem recency_check_compares_instants
  (c : Z) (s : string) (dt : datetime) (off : Z)
  (Hparse : fromisoformat (replace_char "Z" "+00:00" s) = Ok dt)
  (Hoff : utcoffset dt = Some off) :
  too_old (VStr s) c = Ok (wall_micros dt - off <? c) /\
  (too_old (VStr s) c = Ok true <-> wall_micros dt - off < c) /\
  (wall_micros dt - off = c -> too_old (VStr s) c = Ok false).
Proof.
  assert (H : too_old (VStr s) c = Ok (wall_micros dt - off <? c)).
  { unfold too_old. destruct (truthy (VStr s)) eqn:E.
    - rewrite Hparse. cbn [bind]. unfold datetime_lt, utc_micros.
      rewrite Hoff. reflexivity.
    - simpl in E. apply negb_false_iff, String.eqb_eq in E. subst.
      discriminate. }
  split; [exact H|]. rewrite H. split.
  - split.
    + intros E. apply Ok_inj in E. now apply Z.ltb_lt.
    + intros E. f_equal. now apply Z.ltb_lt.
  - intros ->. now rewrite Z.ltb_irrefl.
Qed.

Lemma recency_check_compares_instants_witness :
  too_old (VStr "2024-05-08T14:00:00+02:00") (cutoff_of sample_world)
  = Ok false /\
  too_old (VStr "2024-05-08T11:59:59.999Z") (cutoff_of sample_world)
  = Ok true.
Proof.
  split.
  - refine (proj2 (proj2 (recency_check_compares_instants
             (cutoff_of sample_world) "2024-05-08T14:00:00+02:00"
             {| year := 2024; month := 5; day := 8; hour := 14; minute := 0;
                second := 0; microsecond := 0;
                utcoffset := Some 7200000000 |} 7200000000 _ _)) _).
    + vm_compute. reflexivity.
    + reflexivity.
    + vm_compute. reflexivity.
  - refine (proj2 (proj1 (proj2 (recency_check_compares_instants
             (cutoff_of sample_world) "2024-05-08T11:59:59.999Z"
             {| year := 2024; month := 5; day := 8; hour := 11; minute := 59;
                second := 59; microsecond := 999000;
                utcoffset := Some 0 |} 0 _ _))) _).
    + vm_compute. reflexivity.
    + reflexivity.
    + vm_compute. reflexivity.
Defined.

(** X6. A timestamp that is not text.  When the member is missing, null,
    empty or otherwise false, the listing skips the recency check and is
    appended with that value as its [date_posted] (the empty string when
    the member is missing).  When it is a true value that is not a
    string, [posted.replace] raises [AttributeError], which the handler
    does not catch. *)
Theorem timestamp_that_is_not_text (c : Z) (st : acc) (job : dict)
  (Hid : truthy (get job "job_id" (VStr "")) = true)
  (Hnew : set_mem (get job "job_id" (VStr "")) (seen_ids st) = false) :
  (truthy (get job "job_posted_at_datetime_utc" (VStr "")) = false ->
   forall sal desc,
     salary_text job = Ok sal ->
     snippet (get job "job_description" (VStr "")) = Ok desc ->
     process_job c st (Listing job) =
       Ok {| all_jobs := all_jobs st ++ [build_listing job sal desc];
             seen_ids :=
               set_add (get job "job_id" (VStr "")) (seen_ids st) |}) /\
  (has_key job "job_posted_at_datetime_utc" = false ->
   get job "job_posted_at_datetime_utc" (VStr "") = VStr "") /\
  (truthy (get job "job_posted_at_datetime_utc" (VStr "")) = true ->
   (forall s, get job "job_posted_at_datetime_utc" (VStr "") <> VStr s) ->
   process_job c st (Listing job) = Raise AttributeError).
Proof.
  repeat split.
  - intros Hf sal desc Hsal Hdesc.
    apply process_job_accepts; try assumption.
    unfold too_old. now rewrite Hf.
  - clear Hid Hnew. generalize "job_posted_at_datetime_utc". intros k.
    induction job as [|[k' v] job IH]; simpl; [reflexivity|].
    destruct (k' =? k)%string; simpl; [discriminate|].
    exact IH.
  - intros Ht Hs. apply process_job_passes; try assumption.
    unfold too_old. rewrite Ht.
    destruct (get job "job_posted_at_datetime_utc" (VStr "")) as [| | |s];
      try reflexivity.
    now destruct (Hs s).
Qed.

Lemma timestamp_that_is_not_text_witness :
  process_job (cutoff_of sample_world) empty_acc
    (Listing [("job_id", VStr "J9");
              ("job_posted_at_datetime_utc", VInt 1715335200)])
  = Raise AttributeError.
Proof.
  refine (proj2 (proj2 (timestamp_that_is_not_text
    (cutoff_of sample_world) empty_acc
    [("job_id", VStr "J9"); ("job_posted_at_datetime_utc", VInt 1715335200)]
    _ _)) _ _).
  - reflexivity.
  - reflexivity.
  - reflexivity.
  - intros s. discriminate.
Defined.

(** ** The fields of the record *)

Section Texts.

Lemma list_ascii_of_string_app (a b : string) :
  list_ascii_of_string (a ++ b) =
  list_ascii_of_string a ++ list_ascii_of_string b.
Proof. induction a as [|c a IH]; simpl; congruence. Qed.

Lemma lstrip_head (l : list ascii) (c : ascii) (r : list ascii) :
  lstrip l = c :: r -> in_strip_set c = false.
Proof.
  induction l as [|x l IH]; simpl; [discriminate|].
  destruct (in_strip_set x) eqn:E; [exact IH|].
  intros H. injection H as <- _. exact E.
Qed.

Lemma lstrip_suffix (l : list ascii) : exists p, l = p ++ lstrip l.
Proof.
  induction l as [|x l [p IH]]; simpl; [now exists []|].
  destruct (in_strip_set x); [|now exists []].
  exists (x :: p). simpl. congruence.
Qed.

Lemma lstrip_keeps (c : ascii) (l : list ascii) :
  in_strip_set c = false -> lstrip (c :: l) = c :: l.
Proof. intros H. simpl. now rewrite H. Qed.

(** [strip] on the characters. *)
Lemma strip_chars (s : string) :
  list_ascii_of_string (strip s) =
  rev (lstrip (rev (lstrip (list_ascii_of_string s)))).
Proof. unfold strip. apply list_ascii_of_string_of_list_ascii. Qed.

Lemma strip_ends (s : string) (c : ascii) (r : list ascii) :
  (list_ascii_of_string (strip s) = c :: r \/
   rev (list_ascii_of_string (strip s)) = c :: r) ->
  in_strip_set c = false.
Proof.
  rewrite strip_chars, rev_involutive. intros [H|H].
  - destruct (lstrip_suffix (rev (lstrip (list_ascii_of_string s))))
      as [p Hp].
    apply (f_equal (@rev ascii)) in Hp.
    rewrite rev_involutive, rev_app_distr, H in Hp. simpl in Hp.
    eapply lstrip_head. exact Hp.
  - eapply lstrip_head. exact H.
Qed.

Lemma tidy_ends (s : string) :
  tidy s = true ->
  exists c l d m,
    list_ascii_of_string s = c :: l /\ in_strip_set c = false /\
    rev (list_ascii_of_string s) = d :: m /\ in_strip_set d = false.
Proof.
  unfold tidy.
  destruct (list_ascii_of_string s) as [|c l]; [discriminate|].
  destruct (rev (c :: l)) as [|d m]; [discriminate|].
  intros H. apply andb_true_iff in H as [H1 H2].
  apply negb_true_iff in H1, H2. now exists c, l, d, m.
Qed.

Lemma strip_chars_id (l : list ascii) (c d : ascii) (r m : list ascii) :
  l = c :: r -> in_strip_set c = false ->
  rev l = d :: m -> in_strip_set d = false ->
  rev (lstrip (rev (lstrip l))) = l.
Proof.
  intros Hl Hc Hr Hd.
  rewrite Hl at 1. rewrite (lstrip_keeps c r Hc), <- Hl.
  rewrite Hr at 1. rewrite (lstrip_keeps d m Hd), <- Hr.
  apply rev_involutive.
Qed.

Lemma strip_between (a b : string) (m : list ascii) :
  tidy a = true -> tidy b = true ->
  rev (lstrip (rev (lstrip
    (list_ascii_of_string a ++ m ++ list_ascii_of_string b)))) =
  list_ascii_of_string a ++ m ++ list_ascii_of_string b.
Proof.
  intros Ha Hb.
  destruct (tidy_ends a Ha) as (c & l & _ & _ & Ea & Hc & _).
  destruct (tidy_ends b Hb) as (_ & _ & d & n & _ & _ & Eb & Hd).
  apply (strip_chars_id _ c d (l ++ m ++ list_ascii_of_string b)
           (n ++ rev m ++ rev (list_ascii_of_string a))); try assumption.
  - now rewrite Ea.
  - rewrite !rev_app_distr, Eb, <- app_assoc. reflexivity.
Qed.

Lemma strip_tidy_left (a : string) :
  tidy a = true ->
  rev (lstrip (rev (lstrip (list_ascii_of_string a ++ [","; " "]%char)))) =
  list_ascii_of_string a.
Proof.
  intros Ha.
  destruct (tidy_ends a Ha) as (c & l & d & n & E & Hc & Hd & Hdn).
  rewrite E at 1. simpl app at 1. rewrite (lstrip_keeps c _ Hc).
  change (c :: l ++ [","; " "]%char) with ((c :: l) ++ [","; " "]%char).
  rewrite rev_app_distr, <- E, Hd. cbn [rev app lstrip in_strip_set].
  cbn. rewrite Hdn, <- Hd. apply rev_involutive.
Qed.

Lemma strip_tidy_right (b : string) :
  tidy b = true ->
  rev (lstrip (rev (lstrip ([","; " "]%char ++ list_ascii_of_string b)))) =
  list_ascii_of_string b.
Proof.
  intros Hb.
  destruct (tidy_ends b Hb) as (c & l & d & n & E & Hc & Hd & Hdn).
  cbn [app lstrip]. cbn.
  eapply strip_chars_id; eassumption.
Qed.

Lemma string_of_chars (s t : string) :
  list_ascii_of_string s = list_ascii_of_string t -> s = t.
Proof.
  intros H. apply (f_equal string_of_list_ascii) in H.
  now rewrite !string_of_list_ascii_of_string in H.
Qed.

Lemma get_missing (d : dict) (k : string) (default : value) :
  has_key d k = false -> get d k default = default.
Proof.
  induction d as [|[k' v] d IH]; simpl; [reflexivity|].
  destruct (k' =? k)%string; simpl; [discriminate | exact IH].
Qed.

Lemma get_has_key (d : dict) (k : string) (a b : value) :
  has_key d k = true -> get d k a = get d k b.
Proof.
  induction d as [|[k' v] d IH]; simpl; [discriminate|].
  destruct (k' =? k)%string; simpl; [reflexivity | exact IH].
Qed.

Lemma substring_prefix (n : nat) (s : string) :
  exists rest,
    s = (substring 0 n s ++ rest)%string /\
    String.length (substring 0 n s) = Nat.min n (String.length s).
Proof.
  revert n. induction s as [|c s IH]; intros [|n]; simpl.
  - now exists "".
  - now exists "".
  - now exists (String c s).
  - destruct (IH n) as (rest & H1 & H2). exists rest.
    split; [congruence | now rewrite H2].
Qed.

End Texts.

(** X7. The location text.  A true remote flag gives ["Remote"] whatever
    the city and the state.  Otherwise the text is [city, state] with
    commas and spaces stripped from both ends: it never begins or ends
    with one; a tidy city and a tidy state give ["city, state"], one of
    them alone gives that one, none gives the empty text; and a city
    that is null is written as the word [None]. *)
Theorem location_text_cases (is_remote city state : value) :
  (truthy is_remote = true ->
   location_text is_remote city state = "Remote") /\
  (truthy is_remote = false ->
   (forall c r,
       list_ascii_of_string (location_text is_remote city state) = c :: r \/
       rev (list_ascii_of_string (location_text is_remote city state))
       = c :: r ->
       in_strip_set c = false) /\
   (forall a b, city = VStr a -> state = VStr b ->
      tidy a = true -> tidy b = true ->
      location_text is_remote city state = (a ++ ", " ++ b)%string) /\
   (forall a, city = VStr a -> state = VStr "" -> tidy a = true ->
      location_text is_remote city state = a) /\
   (forall b, city = VStr "" -> state = VStr b -> tidy b = true ->
      location_text is_remote city state = b) /\
   (city = VStr "" -> state = VStr "" ->
      location_text is_remote city state = "") /\
   (forall b, city = VNone -> state = VStr b -> tidy b = true ->
      location_text is_remote city state = ("None, " ++ b)%string)).
Proof.
  unfold location_text. split; [now intros ->|].
  intros ->. split; [intros c r; apply strip_ends|].
  split; [|split; [|split; [|split]]].
  - intros a b -> -> Ha Hb. apply string_of_chars.
    rewrite strip_chars. cbn [py_str].
    rewrite !list_ascii_of_string_app.
    exact (strip_between a b [","; " "]%char Ha Hb).
  - intros a -> -> Ha. apply string_of_chars.
    rewrite strip_chars. cbn [py_str].
    rewrite !list_ascii_of_string_app.
    exact (strip_tidy_left a Ha).
  - intros b -> -> Hb. apply string_of_chars.
    rewrite strip_chars. cbn [py_str].
    exact (strip_tidy_right b Hb).
  - intros -> ->. reflexivity.
  - intros b -> -> Hb. apply string_of_chars.
    rewrite strip_chars. cbn [py_str].
    rewrite !list_ascii_of_string_app.
    exact (strip_between "None" b [","; " "]%char eq_refl Hb).
Qed.

Lemma location_text_cases_witness :
  location_text (VBool false) (VStr "Boston") (VStr "MA") = "Boston, MA" /\
  location_text (VBool false) (VStr "Boston") (VStr "") = "Boston".
Proof.
  split.
  - refine (proj1 (proj2 (proj2
      (location_text_cases (VBool false) (VStr "Boston") (VStr "MA")) _))
      "Boston" "MA" _ _ _ _); reflexivity.
  - refine (proj1 (proj2 (proj2 (proj2
      (location_text_cases (VBool false) (VStr "Boston") (VStr "")) _)))
      "Boston" _ _ _); reflexivity.
Defined.

(** X8. An accepted listing is appended as the record of lines 109-120.
    A member the raw listing lacks takes its default: ["Unknown Title"],
    ["Unknown Company"], the empty text for the links, [False] for the
    remote flag.  A member that is there is copied as it is, null
    included: a null title stays null, it does not become the default. *)
Theorem absent_members_take_defaults
  (c : Z) (st : acc) (job : dict) (sal : string) (desc : value)
  (Hid : truthy (get job "job_id" (VStr "")) = true)
  (Hnew : set_mem (get job "job_id" (VStr "")) (seen_ids st) = false)
  (Hrecent : too_old (get job "job_posted_at_datetime_utc" (VStr "")) c
             = Ok false)
  (Hsal : salary_text job = Ok sal)
  (Hdesc : snippet (get job "job_description" (VStr "")) = Ok desc) :
  exists j,
    process_job c st (Listing job) =
      Ok {| all_jobs := all_jobs st ++ [j];
            seen_ids := set_add (id j) (seen_ids st) |} /\
    salary j = sal /\ description_snippet j = desc /\
    (has_key job "job_title" = false -> title j = VStr "Unknown Title") /\
    (has_key job "employer_name" = false ->
     company j = VStr "Unknown Company") /\
    (has_key job "job_apply_link" = false -> apply_link j = VStr "") /\
    (has_key job "employer_logo" = false -> employer_logo j = VStr "") /\
    (has_key job "job_is_remote" = false -> is_remote j = VBool false) /\
    (has_key job "job_title" = true -> title j = get job "job_title" VNone) /\
    (has_key job "employer_name" = true ->
     company j = get job "employer_name" VNone).
Proof.
  exists (build_listing job sal desc).
  split; [now apply process_job_accepts|].
  cbn [build_listing salary description_snippet title company apply_link
       employer_logo is_remote].
  repeat split; try apply get_missing; apply get_has_key.
Qed.

Lemma absent_members_take_defaults_witness :
  exists j,
    process_job (cutoff_of sample_world) empty_acc
      (Listing [("job_id", VStr "J7"); ("job_title", VNone)]) =
      Ok {| all_jobs := [j]; seen_ids := [id j] |} /\
    title j = VNone /\ company j = VStr "Unknown Company".
Proof.
  destruct (absent_members_take_defaults (cutoff_of sample_world) empty_acc
              [("job_id", VStr "J7"); ("job_title", VNone)] "" (VStr "")
              eq_refl eq_refl eq_refl eq_refl eq_refl)
    as (j & Hj & _ & _ & _ & Hc & _ & _ & _ & Ht & _).
  exists j. split; [|split].
  - rewrite Hj. simpl. unfold set_add. simpl. reflexivity.
  - now apply Ht.
  - now apply Hc.
Defined.

Lemma process_job_salary_raises (c : Z) (st : acc) (job : dict) (e : exn) :
  truthy (get job "job_id" (VStr "")) = true ->
  set_mem (get job "job_id" (VStr "")) (seen_ids st) = false ->
  too_old (get job "job_posted_at_datetime_utc" (VStr "")) c = Ok false ->
  salary_text job = Raise e ->
  process_job c st (Listing job) = Raise e.
Proof.
  intros Hid Hseen Hold Hsal.
  unfold process_job. now rewrite Hid, Hseen, Hold, Hsal.
Qed.

Lemma process_job_snippet_raises (c : Z) (st : acc) (job : dict)
  (sal : string) (e : exn) :
  truthy (get job "job_id" (VStr "")) = true ->
  set_mem (get job "job_id" (VStr "")) (seen_ids st) = false ->
  too_old (get job "job_posted_at_datetime_utc" (VStr "")) c = Ok false ->
  salary_text job = Ok sal ->
  snippet (get job "job_description" (VStr "")) = Raise e ->
  process_job c st (Listing job) = Raise e.
Proof.
  intros Hid Hseen Hold Hsal Hdesc.
  unfold process_job. now rewrite Hid, Hseen, Hold, Hsal, Hdesc.
Qed.

Lemma substring_short (n : nat) (s : string) :
  (String.length s <= n)%nat -> substring 0 n s = s.
Proof.
  revert n. induction s as [|c s IH]; intros [|n]; simpl; intros H;
    try reflexivity; try lia.
  f_equal. apply IH. lia.
Qed.

(** X9. The description snippet is the first 200 characters of the
    description: a prefix of it, at most 200 long, and the description
    itself when that is no longer.  A description that is missing, null
    or empty gives the empty text.  A description that is a number or
    [True] cannot be sliced: [TypeError], and the listing that carries it
    stops the run. *)
Theorem snippet_is_prefix_of_description (v : value) :
  (forall s, v = VStr s ->
     exists t rest,
       snippet v = Ok (VStr t) /\
       s = (t ++ rest)%string /\
       String.length t = Nat.min 200 (String.length s) /\
       ((String.length s <= 200)%nat -> t = s)) /\
  (truthy v = false -> snippet v = Ok (VStr "")) /\
  (truthy v = true -> (forall s, v <> VStr s) ->
   snippet v = Raise TypeError /\
   forall c st job sal,
     get job "job_description" (VStr "") = v ->
     truthy (get job "job_id" (VStr "")) = true ->
     set_mem (get job "job_id" (VStr "")) (seen_ids st) = false ->
     too_old (get job "job_posted_at_datetime_utc" (VStr "")) c = Ok false ->
     salary_text job = Ok sal ->
     process_job c st (Listing job) = Raise TypeError).
Proof.
  split; [|split].
  - intros s ->.
    destruct (substring_prefix 200 s) as (rest & H1 & H2).
    assert (Hsn : snippet (VStr s) = Ok (VStr (substring 0 200 s))).
    { unfold snippet. destruct s; reflexivity. }
    exists (substring 0 200 s), rest.
    repeat split; try assumption.
    intros Hle. now apply substring_short.
  - intros H. unfold snippet. now rewrite H.
  - intros Ht Hs.
    assert (Hsn : snippet v = Raise TypeError).
    { unfold snippet. rewrite Ht.
      destruct v as [| | |s]; try reflexivity. now destruct (Hs s). }
    split; [exact Hsn|].
    intros c st job sal <- Hid Hnew Hold Hsal.
    eapply process_job_snippet_raises; eassumption.
Qed.

Lemma snippet_is_prefix_of_description_witness :
  snippet (VInt 42) = Raise TypeError /\
  exists t rest,
    snippet (VStr "Lead the brand.") = Ok (VStr t) /\
    "Lead the brand." = (t ++ rest)%string.
Proof.
  split.
  - refine (proj1 (proj2 (proj2
      (snippet_is_prefix_of_description (VInt 42))) _ _)).
    + reflexivity.
    + intros s. discriminate.
  - destruct (proj1 (snippet_is_prefix_of_description
                       (VStr "Lead the brand.")) _ eq_refl)
      as (t & rest & H1 & H2 & _).
    now exists t, rest.
Defined.

Lemma float_of_int_overflow (z : Z) :
  2 ^ 1024 <= Z.abs z -> float_of_int z = Raise OverflowError.
Proof.
  intros H. unfold float_of_int.
  set (a := Z.abs z) in *.
  assert (Ha : 0 < a) by (pose proof (Z.pow_pos_nonneg 2 1024); lia).
  assert (Hlog : 1024 <= Z.log2 a) by (apply Z.log2_le_pow2; lia).
  destruct (Z.log2 a + 1 <=? 53) eqn:E; [apply Z.leb_le in E; lia|].
  cbv zeta.
  set (sh := Z.log2 a + 1 - 53).
  assert (Hsh : 972 <= sh) by (unfold sh; lia).
  assert (Hq : 2 ^ 52 <= Z.shiftr a sh).
  { rewrite Z.shiftr_div_pow2 by lia.
    apply Z.div_le_lower_bound; [apply Z.pow_pos_nonneg; lia|].
    rewrite <- Z.pow_add_r by lia.
    replace (sh + 52) with (Z.log2 a) by (unfold sh; lia).
    apply Z.log2_spec. exact Ha. }
  set (q := Z.shiftr a sh) in *.
  match goal with
  | |- context [if ?b then q + 1 else q] =>
    set (q' := if b then q + 1 else q);
    assert (Hq' : 2 ^ 52 <= q') by (unfold q'; destruct b; lia)
  end.
  assert (Hv : 2 ^ 1024 <= Z.shiftl q' sh).
  { rewrite Z.shiftl_mul_pow2 by lia.
    replace (2 ^ 1024) with (2 ^ 52 * 2 ^ 972) by reflexivity.
    apply Z.mul_le_mono_nonneg; try lia.
    apply Z.pow_le_mono_r; lia. }
  apply Z.leb_le in Hv. now rewrite Hv.
Qed.

(** X10. Salary bounds that cannot be formatted stop the run.  The format
    [,.0f] is for numbers: a minimum given as a non-empty text raises
    [ValueError], so does such a maximum next to a well-formed minimum
    or none; an integer of magnitude 2^1024 or more raises
    [OverflowError] when it is turned into a float.  None of these is
    caught: the step of a listing that passed the checks raises. *)
Theorem salary_that_cannot_be_formatted (job : dict) :
  (forall t, get job "job_min_salary" VNone = VStr t -> t <> "" ->
     salary_text job = Raise ValueError) /\
  (forall t, get job "job_max_salary" VNone = VStr t -> t <> "" ->
     plain_number (get job "job_min_salary" VNone) ->
     salary_text job = Raise ValueError) /\
  (forall z, get job "job_min_salary" VNone = VInt z ->
     2 ^ 1024 <= Z.abs z ->
     salary_text job = Raise OverflowError) /\
  (forall e c st,
     salary_text job = Raise e ->
     truthy (get job "job_id" (VStr "")) = true ->
     set_mem (get job "job_id" (VStr "")) (seen_ids st) = false ->
     too_old (get job "job_posted_at_datetime_utc" (VStr "")) c = Ok false ->
     process_job c st (Listing job) = Raise e).
Proof.
  split; [|split; [|split]].
  - intros t Hmin Hne. unfold salary_text. rewrite Hmin.
    assert (Ht : truthy (VStr t) = true)
      by (simpl; apply negb_true_iff, String.eqb_neq; exact Hne).
    rewrite Ht. cbn [andb format_f0 bind].
    destruct (truthy (get job "job_max_salary" VNone)); reflexivity.
  - intros t Hmax Hne Hmin. unfold salary_text. rewrite Hmax.
    assert (Ht : truthy (VStr t) = true)
      by (simpl; apply negb_true_iff, String.eqb_neq; exact Hne).
    rewrite Ht. destruct Hmin as [->|(z & -> & Hz)].
    + reflexivity.
    + rewrite (format_f0_exact z Hz). cbn [truthy].
      destruct (z =? 0); reflexivity.
  - intros z Hmin Hz. unfold salary_text. rewrite Hmin.
    assert (Ht : truthy (VInt z) = true).
    { simpl. apply negb_true_iff, Z.eqb_neq.
      pose proof (Z.pow_pos_nonneg 2 1024). lia. }
    rewrite Ht. cbn [andb]. unfold format_f0. cbn [as_int].
    rewrite (float_of_int_overflow z Hz). cbn [bind].
    destruct (truthy (get job "job_max_salary" VNone)); reflexivity.
  - intros e c st Hsal Hid Hnew Hold.
    now apply process_job_salary_raises.
Qed.

Lemma salary_that_cannot_be_formatted_witness :
  salary_text [("job_min_salary", VStr "80000")] = Raise ValueError /\
  process_job (cutoff_of sample_world) empty_acc
    (Listing [("job_id", VStr "J8"); ("job_min_salary", VStr "80000")])
  = Raise ValueError.
Proof.
  split.
  - refine (proj1 (salary_that_cannot_be_formatted _) "80000" _ _).
    + reflexivity.
    + discriminate.
  - refine (proj2 (proj2 (proj2 (salary_that_cannot_be_formatted _)))
              ValueError _ _ _ _ _ _); reflexivity.
Defined.

(** ** Numbers with thousands separators *)

Section Thousands.

Lemma is_digit_not_comma (c : ascii) :
  is_digit c = true -> Ascii.eqb c "," = false.
Proof.
  destruct (Ascii.eqb_spec c ","%char) as [->|]; [discriminate|reflexivity].
Qed.

Lemma digits_of_uint (d : Decimal.uint) :
  Forall (fun c => is_digit c = true)
         (list_ascii_of_string (NilEmpty.string_of_uint d)).
Proof. induction d; simpl; constructor; auto. Qed.

Lemma digits_of_decimal (n : Z) :
  Forall (fun c => is_digit c = true) (list_ascii_of_string (decimal n)) /\
  list_ascii_of_string (decimal n) <> [].
Proof.
  unfold decimal, NilZero.string_of_uint.
  destruct (N.to_uint (Z.to_N n)) eqn:E;
    try (split; [rewrite <- E at 1; rewrite E; apply digits_of_uint
                | discriminate]).
  split; [repeat constructor | discriminate].
Qed.

Lemma group_rev_filter (l : list ascii) :
  Forall (fun c => is_digit c = true) l ->
  forall k,
    filter (fun c => negb (Ascii.eqb c ",")) (group_rev l k) = l.
Proof.
  induction 1 as [|c l Hc _ IH]; intros k; [reflexivity|].
  pose proof (is_digit_not_comma c Hc) as Hn.
  destruct k as [|[|[|[|k]]]]; simpl; rewrite ?Hn; simpl; now rewrite IH.
Qed.

Lemma group_rev_grouped (l : list ascii) :
  Forall (fun c => is_digit c = true) l ->
  forall k, (k <= 3)%nat -> grouped_rev (group_rev l k) k = true.
Proof.
  induction 1 as [|c l Hc _ IH]; intros k Hk; [reflexivity|].
  pose proof (is_digit_not_comma c Hc) as Hn.
  destruct k as [|[|[|[|k]]]]; try lia; simpl; rewrite ?Hn, ?Hc; simpl;
    apply IH; lia.
Qed.

Lemma group_rev_last (l : list ascii) :
  l <> [] ->
  forall k, exists p c, group_rev l k = p ++ [c] /\ In c l.
Proof.
  induction l as [|x l IH]; [congruence|]. intros _ k.
  assert (Hl : l = [] \/ l <> [])
    by (destruct l; [left | right]; congruence).
  destruct Hl as [->|Hne].
  - destruct k as [|[|[|[|k]]]]; simpl;
      first [ exists [], x; split; [reflexivity | now left]
            | exists [","%char], x; split; [reflexivity | now left] ].
  - destruct k as [|[|[|[|k]]]]; cbn [group_rev];
      match goal with
      | |- context [group_rev l ?k'] =>
        destruct (IH Hne k') as (p & c & -> & Hc)
      end;
      first [ exists (x :: p), c; split; [reflexivity | now right]
            | exists (","%char :: x :: p), c;
              split; [reflexivity | now right] ].
Qed.

Lemma thousands_chars (n : Z) :
  list_ascii_of_string (thousands n) =
  rev (group_rev (rev (list_ascii_of_string (decimal n))) 0).
Proof. unfold thousands. apply list_ascii_of_string_of_list_ascii. Qed.

Lemma strip_commas_minus (s : string) :
  strip_commas ("-" ++ s) = ("-" ++ strip_commas s)%string.
Proof. reflexivity. Qed.

End Thousands.

(** X11. A number is written with its thousands separators in the right
    places.  For an integer below 2^53 in magnitude the text of [,.0f]
    is the decimal text of the number with commas put in: taking the
    commas out gives back [str] of the number; read from the right,
    every comma comes after exactly three digits and no group is longer;
    and the digits begin with a digit, not with a comma. *)
Theorem thousands_separators_are_placed (z : Z)
  (Hz : Z.abs z < 2 ^ 53) :
  format_f0 (VInt z) = Ok (commas z) /\
  strip_commas (commas z) = py_str (VInt z) /\
  commas z =
    (if z <? 0 then ("-" ++ thousands (- z))%string else thousands z) /\
  grouped_rev (rev (list_ascii_of_string (thousands (Z.abs z)))) 0 = true /\
  exists c r,
    list_ascii_of_string (thousands (Z.abs z)) = c :: r /\
    is_digit c = true.
Proof.
  assert (Hstrip : forall n, strip_commas (thousands n) = decimal n).
  { intros n. unfold strip_commas.
    rewrite thousands_chars, filter_rev.
    destruct (digits_of_decimal n) as [Hd _].
    rewrite group_rev_filter, rev_involutive.
    - apply string_of_list_ascii_of_string.
    - apply Forall_rev. exact Hd. }
  split; [now apply format_f0_exact|]. split; [|split; [reflexivity|split]].
  - unfold commas, py_str.
    destruct (z <? 0); [rewrite strip_commas_minus|]; now rewrite Hstrip.
  - rewrite thousands_chars, rev_involutive.
    apply group_rev_grouped; [|lia].
    apply Forall_rev. apply digits_of_decimal.
  - destruct (digits_of_decimal (Z.abs z)) as [Hd Hne].
    assert (Hr : rev (list_ascii_of_string (decimal (Z.abs z))) <> []).
    { intros E. apply Hne. apply (f_equal (@rev ascii)) in E.
      now rewrite rev_involutive in E. }
    destruct (group_rev_last _ Hr 0%nat) as (p & c & Hp & Hc).
    exists c, (rev p). split.
    + rewrite thousands_chars, Hp, rev_app_distr. reflexivity.
    + apply in_rev in Hc. rewrite Forall_forall in Hd. now apply Hd.
Qed.

Lemma thousands_separators_are_placed_witness :
  format_f0 (VInt (-1234567)) = Ok "-1,234,567" /\
  strip_commas "-1,234,567" = "-1234567".
Proof.
  destruct (thousands_separators_are_placed (-1234567)) as (H1 & H2 & _).
  - vm_compute. reflexivity.
  - split; [exact H1 | exact H2].
Defined.

(** ** When the sort raises *)

Section SortRaises.

Lemma insert_desc_head (x h : listing) (t s : list listing) :
  insert_desc x (h :: t) = Ok s ->
  exists b, py_lt (date_posted x) (date_posted h) = Ok b.
Proof.
  simpl. destruct (py_lt (date_posted x) (date_posted h)) as [b|];
    [now exists b | discriminate].
Qed.

Lemma py_lt_Ok_kind (a b : value) (r : bool) :
  py_lt a b = Ok r ->
  (exists s t, a = VStr s /\ b = VStr t) \/
  (exists x y, as_int a = Some x /\ as_int b = Some y).
Proof.
  destruct a as [|[]|x|s], b as [|[]|y|t]; cbv [py_lt as_int];
    try discriminate; intros _; eauto 6.
Qed.

Lemma py_lt_raises (a b : value) (e : exn) :
  py_lt a b = Raise e -> e = TypeError.
Proof.
  destruct a as [|[]|x|s], b as [|[]|y|t]; cbv [py_lt as_int];
    congruence.
Qed.

Lemma insert_desc_raises (x : listing) (l : list listing) (e : exn) :
  insert_desc x l = Raise e -> e = TypeError.
Proof.
  induction l as [|y l IH]; simpl; [discriminate|].
  destruct (py_lt (date_posted x) (date_posted y)) as [[|]|e'] eqn:E;
    simpl; try discriminate.
  - destruct (insert_desc x l); simpl; [discriminate|].
    intros H. injection H as <-. now apply IH.
  - intros H. injection H as <-. eapply py_lt_raises; eassumption.
Qed.

Lemma sort_desc_raises (l : list listing) (e : exn) :
  sort_desc l = Raise e -> e = TypeError.
Proof.
  induction l as [|x l IH]; simpl; [discriminate|].
  destruct (sort_desc l) as [s|e']; simpl.
  - apply insert_desc_raises.
  - intros H. injection H as <-. now apply IH.
Qed.

(** A sort that returns has compared every listing with another one:
    with two or more listings, the dates are all strings or all
    numbers. *)
Lemma sort_desc_Ok_kinds (l s : list listing) :
  sort_desc l = Ok s -> (2 <= List.length l)%nat ->
  (forall x, In x l -> exists t, date_posted x = VStr t) \/
  (forall x, In x l -> exists z, as_int (date_posted x) = Some z).
Proof.
  revert s. induction l as [|x l IH]; simpl; intros s H Hlen; [lia|].
  destruct (sort_desc l) as [s'|] eqn:Es; simpl in H; [|discriminate].
  pose proof (sort_desc_perm _ _ Es) as Hperm.
  destruct s' as [|h t].
  { apply Permutation_sym, Permutation_nil in Hperm. subst. simpl in Hlen.
    lia. }
  destruct (insert_desc_head _ _ _ _ H) as [b Hb].
  assert (Hh : In h l)
    by (eapply Permutation_in; [apply Permutation_sym; exact Hperm|now left]).
  destruct l as [|y [|y' l']]; [destruct Hh| |].
  - destruct Hh as [->|[]].
    destruct (py_lt_Ok_kind _ _ _ Hb)
      as [(u & v & Hu & Hv)|(u & v & Hu & Hv)]; [left|right];
      intros x' [<-|[<-|[]]]; eauto.
  - destruct (IH _ eq_refl ltac:(simpl; lia)) as [Hall|Hall];
      destruct (py_lt_Ok_kind _ _ _ Hb)
        as [(u & v & Hu & Hv)|(u & v & Hu & Hv)].
    + left. intros x' [<-|Hx']; eauto.
    + destruct (Hall h Hh) as [t' Ht']. rewrite Ht' in Hv. discriminate.
    + destruct (Hall h Hh) as [z Hz]. rewrite Hv in Hz. discriminate.
    + right. intros x' [<-|Hx']; eauto.
Qed.

Lemma insert_desc_numbers (x : listing) (l : list listing) :
  (exists z, as_int (date_posted x) = Some z) ->
  Forall (fun j => exists z, as_int (date_posted j) = Some z) l ->
  exists r, insert_desc x l = Ok r.
Proof.
  intros [z Hz] Hl. induction Hl as [|y l [u Hu] _ [r IH]]; simpl.
  - now exists [x].
  - assert (Hlt : py_lt (date_posted x) (date_posted y) = Ok (z <? u)).
    { destruct (date_posted x) as [|[]|x'|s], (date_posted y) as [|[]|y'|t];
        cbv [py_lt as_int] in *; try discriminate; congruence. }
    rewrite Hlt. cbn [bind].
    destruct (z <? u); [|now eexists].
    rewrite IH. now eexists.
Qed.

Lemma sort_desc_numbers (l : list listing) :
  Forall (fun j => exists z, as_int (date_posted j) = Some z) l ->
  exists r, sort_desc l = Ok r.
Proof.
  induction 1 as [|x l Hx Hl [r IH]]; simpl; [now exists []|].
  rewrite IH. cbn [bind]. apply insert_desc_numbers; [exact Hx|].
  eapply Permutation_Forall; [apply sort_desc_perm; exact IH | exact Hl].
Qed.

End SortRaises.

(** X12. When the sort of the accepted listings raises.  It returns
    exactly when there is at most one listing, or every [date_posted] is
    a string, or every one is a number; otherwise (a null date next to
    any other listing, a string next to a number) comparing the keys
    raises [TypeError], and a run whose searches all returned ends in
    that [TypeError] without writing its file. *)
Theorem sort_raises_on_mixed_dates (l : list listing) :
  ((exists s, sort_desc l = Ok s) <->
   (List.length l <= 1)%nat \/
   (forall x, In x l -> exists t, date_posted x = VStr t) \/
   (forall x, In x l -> exists z, as_int (date_posted x) = Some z)) /\
  ((exists s, sort_desc l = Ok s) \/ sort_desc l = Raise TypeError) /\
  (forall x, In x l -> date_posted x = VNone -> (2 <= List.length l)%nat ->
     sort_desc l = Raise TypeError) /\
  (forall w fin,
      truthy (VStr (API_KEY w)) = true ->
      snd (for_searches w (cutoff_of w) empty_acc SEARCHES) = Ok fin ->
      all_jobs fin = l ->
      sort_desc l = Raise TypeError ->
      snd (main w) = Raise TypeError /\ file_written w = None).
Proof.
  assert (Hcases : (exists s, sort_desc l = Ok s) \/
                   sort_desc l = Raise TypeError).
  { destruct (sort_desc l) as [s|e] eqn:E; [left; now exists s|right].
    now rewrite (sort_desc_raises _ _ E). }
  assert (Hiff : (exists s, sort_desc l = Ok s) <->
    (List.length l <= 1)%nat \/
    (forall x, In x l -> exists t, date_posted x = VStr t) \/
    (forall x, In x l -> exists z, as_int (date_posted x) = Some z)).
  { split.
    - intros [s Hs].
      destruct (Nat.le_gt_cases (List.length l) 1) as [Hle|Hgt];
        [now left|right].
      apply (sort_desc_Ok_kinds l s Hs). lia.
    - intros [Hle|[Hstr|Hnum]].
      + destruct l as [|x [|y l']]; simpl in Hle; try lia; simpl; eauto.
      + apply sort_desc_strings. now apply Forall_forall.
      + apply sort_desc_numbers. now apply Forall_forall. }
  split; [exact Hiff|]. split; [exact Hcases|]. split.
  - intros x Hx Hnone Hlen.
    destruct Hcases as [Hok|Hraise]; [|exact Hraise].
    apply Hiff in Hok as [Hle|[Hstr|Hnum]]; [lia| |].
    + destruct (Hstr x Hx) as [t Ht]. congruence.
    + destruct (Hnum x Hx) as [z Hz]. rewrite Hnone in Hz. discriminate.
  - intros w fin Hk Hfin <- Hraise.
    pose proof (main_outcome w Hk) as H. rewrite Hfin, Hraise in H.
    now inversion H.
Qed.

Lemma sort_raises_on_mixed_dates_witness :
  let w := page_world
             [Listing [("job_id", VStr "J1");
                       ("job_posted_at_datetime_utc", VNone)];
              sample_job "J2" "2024-05-10T02:00:00.000Z"] in
  snd (main w) = Raise TypeError /\ file_written w = None.
Proof.
  intros w.
  pose (fin := match snd (for_searches w (cutoff_of w) empty_acc SEARCHES)
               with Ok st => st | Raise _ => empty_acc end).
  refine (proj2 (proj2 (proj2
    (sort_raises_on_mixed_dates (all_jobs fin)))) w fin _ _ _ _).
  - reflexivity.
  - vm_compute. reflexivity.
  - reflexivity.
  - vm_compute. reflexivity.
Defined.

(** ** Input of the documented shape *)

Section WellFormed.

#[local] Arguments fetch_jobs_for_query : simpl never.
#[local] Arguments process_search : simpl never.

Lemma bind_raises {A B : Type} (m : res A) (f : A -> res B) (e0 : exn) :
  (forall e, m = Raise e -> e = e0) ->
  (forall a e, f a = Raise e -> e = e0) ->
  forall e, bind m f = Raise e -> e = e0.
Proof.
  intros Hm Hf e. destruct m as [a|e']; simpl.
  - apply Hf.
  - intros H. injection H as <-. now apply Hm.
Qed.

Lemma parse_digits_raises (n : nat) :
  forall acc l e, parse_digits n acc l = Raise e -> e = ValueError.
Proof.
  induction n as [|n IH]; simpl; intros acc l e; [discriminate|].
  destruct l as [|c l]; [congruence|].
  destruct (digit_of c); [apply IH | congruence].
Qed.

Lemma expect_raises (c : ascii) (l : list ascii) (e : exn) :
  expect c l = Raise e -> e = ValueError.
Proof.
  destruct l as [|c' l]; simpl; [congruence|].
  destruct (Ascii.eqb c' c); congruence.
Qed.

Lemma iso_to_ymd_raises (y w d : Z) (e : exn) :
  iso_to_ymd y w d = Raise e -> e = ValueError.
Proof.
  unfold iso_to_ymd.
  destruct (_ || _); [congruence|].
  destruct (_ && _); [congruence|].
  destruct (_ || _); congruence.
Qed.

Lemma expect_if_raises (b : bool) (c : ascii) (l : list ascii) (e : exn) :
  (if b then expect c l else Ok l) = Raise e -> e = ValueError.
Proof. destruct b; [apply expect_raises | discriminate]. Qed.

Lemma parse_isoformat_date_raises (l : list ascii) (len : Z) (e : exn) :
  parse_isoformat_date l len = Raise e -> e = ValueError.
Proof.
  revert e. unfold parse_isoformat_date.
  apply bind_raises; [apply parse_digits_raises|]. intros [y p].
  destruct (Ascii.eqb _ "W").
  - apply bind_raises; [apply parse_digits_raises|]. intros [w p1].
    destruct (_ <? len); [|intros e; apply iso_to_ymd_raises].
    apply bind_raises; [intros e; apply expect_if_raises|]. intros p2.
    apply bind_raises; [apply parse_digits_raises|]. intros [d p3].
    intros e. apply iso_to_ymd_raises.
  - apply bind_raises; [apply parse_digits_raises|]. intros [m p1].
    apply bind_raises; [intros e; apply expect_if_raises|]. intros p2.
    apply bind_raises; [apply parse_digits_raises|]. intros [d p3].
    discriminate.
Qed.

Lemma parse_hh_mm_ss_raises (i : nat) :
  forall sep p k e, parse_hh_mm_ss i sep p k = Raise e -> e = ValueError.
Proof.
  induction i as [|i IH]; intros sep p k; cbn [parse_hh_mm_ss];
    [discriminate|].
  apply bind_raises; [apply parse_digits_raises|]. intros [v p1].
  destruct (k - 3 <=? 0); [discriminate|].
  destruct (_ && _).
  { apply bind_raises; [apply IH|]. intros [vs en]. discriminate. }
  destruct (_ || _); [discriminate|].
  destruct (negb _); [|congruence].
  apply bind_raises; [apply IH|]. intros [vs en]. discriminate.
Qed.

Lemma parse_hh_mm_ss_ff_raises (l : list ascii) (n : Z) (e : exn) :
  parse_hh_mm_ss_ff l n = Raise e -> e = ValueError.
Proof.
  revert e. unfold parse_hh_mm_ss_ff.
  apply bind_raises; [apply parse_hh_mm_ss_raises|]. intros [vs [more|p k]].
  - discriminate.
  - apply bind_raises; [apply parse_digits_raises|]. intros [f p1].
    discriminate.
Qed.

Lemma parse_isoformat_time_raises (l : list ascii) (e : exn) :
  parse_isoformat_time l = Raise e -> e = ValueError.
Proof.
  revert e. unfold parse_isoformat_time.
  apply bind_raises; [intros e; apply parse_hh_mm_ss_ff_raises|].
  intros [[[[h m] s] f] more].
  destruct (skipn _ l) as [|c z].
  - destruct more; congruence.
  - destruct (Ascii.eqb c "Z"); [destruct (Ascii.eqb _ _); congruence|].
    apply bind_raises; [intros e; apply parse_hh_mm_ss_ff_raises|].
    intros [[[[zh zm] zs] zf] zmore]. destruct zmore; congruence.
Qed.

Lemma check_datetime_raises (dt : datetime) (e : exn) :
  check_datetime dt = Raise e -> e = ValueError.
Proof. unfold check_datetime. destruct (_ && _); congruence. Qed.

(** [fromisoformat] raises nothing but [ValueError]. *)
Lemma fromisoformat_raises (s : string) (e : exn) :
  fromisoformat s = Raise e -> e = ValueError.
Proof.
  revert e. unfold fromisoformat.
  destruct (_ <? 7); [congruence|].
  destruct (find_isoformat_datetime_separator _ _) as [n|]; [|congruence].
  apply bind_raises; [intros e; apply parse_isoformat_date_raises|].
  intros [[y m] d].
  destruct (n <? _); [|intros e; apply check_datetime_raises].
  apply bind_raises; [intros e; apply parse_isoformat_time_raises|].
  intros [[[[h mi] sec] f] off]. intros e. apply check_datetime_raises.
Qed.

Lemma too_old_returns (c : Z) (s : string) :
  offset_or_unparsed s -> exists b, too_old (VStr s) c = Ok b.
Proof.
  intros Hs. unfold too_old.
  destruct (truthy (VStr s)); [|now exists false].
  destruct (fromisoformat (replace_char "Z" "+00:00" s)) as [dt|e] eqn:E;
    cbn [bind].
  - unfold datetime_lt, utc_micros.
    destruct (utcoffset dt) as [off|] eqn:Eo;
      [|now destruct (Hs dt E)].
    simpl. eauto.
  - rewrite (fromisoformat_raises _ _ E). simpl. eauto.
Qed.

Lemma salary_text_returns (job : dict) :
  plain_number (get job "job_min_salary" VNone) ->
  plain_number (get job "job_max_salary" VNone) ->
  exists sal, salary_text job = Ok sal.
Proof.
  intros Hlo Hhi. unfold salary_text.
  destruct Hlo as [->|(a & -> & Ha)], Hhi as [->|(b & -> & Hb)];
    cbn [truthy andb];
    rewrite ?(format_f0_exact _ Ha), ?(format_f0_exact _ Hb);
    repeat match goal with
           | |- context [negb ?x] => destruct x; cbn [negb andb bind]
           | |- context [if truthy ?x then _ else _] => destruct (truthy x)
           end; eauto.
Qed.

Lemma well_formed_step (c : Z) (st : acc) (job : dict) :
  well_formed_job job ->
  exists st',
    process_job c st (Listing job) = Ok st' /\
    (Forall (fun j => exists s, date_posted j = VStr s) (all_jobs st) ->
     Forall (fun j => exists s, date_posted j = VStr s) (all_jobs st')).
Proof.
  intros (_ & (s & Hs & Hoff) & Hlo & Hhi & Hdesc).
  destruct (too_old_returns c s Hoff) as [b Hb].
  destruct (salary_text_returns job Hlo Hhi) as [sal Hsal].
  assert (Hsn : exists d, snippet (get job "job_description" (VStr ""))
                          = Ok d).
  { destruct Hdesc as [->|[t ->]]; [now exists (VStr "")|].
    unfold snippet. destruct (truthy (VStr t)); eauto. }
  destruct Hsn as [d Hd].
  unfold process_job. rewrite Hs, Hb, Hsal, Hd.
  destruct (negb _ || _); [now exists st|].
  cbn [bind]. destruct b; [now exists st|].
  eexists. split; [reflexivity|]. cbn [all_jobs].
  intros H. apply Forall_app. split; [exact H|].
  constructor; [|constructor]. now exists s.
Qed.

Lemma well_formed_page (c : Z) (l : list entry) :
  Forall well_formed_entry l ->
  forall st,
    exists st',
      process_results c st l = Ok st' /\
      (Forall (fun j => exists s, date_posted j = VStr s) (all_jobs st) ->
       Forall (fun j => exists s, date_posted j = VStr s) (all_jobs st')).
Proof.
  induction 1 as [|e l (job & -> & Hjob) _ IH]; intros st;
    cbn [process_results].
  - now exists st.
  - destruct (well_formed_step c st job Hjob) as (st1 & -> & H1).
    cbn [bind]. destruct (IH st1) as (st' & -> & H').
    exists st'. split; auto.
Qed.

Lemma well_formed_search (w : world) (c : Z) (st : acc) (s : search) :
  well_formed_response (urlopen w (request_of w s)) ->
  exists st',
    snd (process_search w c st s) = Ok st' /\
    (Forall (fun j => exists s, date_posted j = VStr s) (all_jobs st) ->
     Forall (fun j => exists s, date_posted j = VStr s) (all_jobs st')).
Proof.
  unfold request_of. rewrite snd_process_search, snd_fetch.
  intros [(e & -> & ->)|[->|(l & -> & Hl)]]; cbn [bind py_len iterate].
  - now exists st.
  - now exists st.
  - apply well_formed_page. exact Hl.
Qed.

Lemma well_formed_searches (w : world) (c : Z) (l : list search) :
  (forall s, In s l -> well_formed_response (urlopen w (request_of w s))) ->
  forall st,
    exists st',
      snd (for_searches w c st l) = Ok st' /\
      (Forall (fun j => exists s, date_posted j = VStr s) (all_jobs st) ->
       Forall (fun j => exists s, date_posted j = VStr s) (all_jobs st')).
Proof.
  induction l as [|s l IH]; intros Hl st.
  - exists st. split; [reflexivity | auto].
  - rewrite snd_for_searches_cons.
    destruct (well_formed_search w c st s (Hl s (or_introl eq_refl)))
      as (st1 & -> & H1).
    cbn [bind].
    destruct (IH (fun s' h => Hl s' (or_intror h)) st1) as (st' & -> & H').
    exists st'. split; auto.
Qed.

End WellFormed.

(** X13. A run on answers of the documented shape always completes.
    When the credential is set and every search is answered by a failure
    the fetch catches, by an object without ["data"], or by a list of
    objects (their members null, booleans, integers or texts) in which
    the identifier is a text or is missing, the timestamp is a text (or
    is missing) that [fromisoformat] either refuses or reads with a UTC
    offset, the salary bounds are null or integers below 2^53, and the
    description is a text, null or missing, then no step raises: the run
    ends normally and writes its file, every date in it a text. *)
Theorem well_formed_run_completes (w : world)
  (Hkey : truthy (VStr (API_KEY w)) = true)
  (Hshape : forall s, In s SEARCHES ->
              well_formed_response (urlopen w (request_of w s))) :
  snd (main w) = Ok tt /\
  exists o,
    file_written w = Some o /\
    Forall (fun j => exists s, date_posted j = VStr s) (jobs o).
Proof.
  destruct (well_formed_searches w (cutoff_of w) SEARCHES Hshape empty_acc)
    as (fin & Hfin & Hdates).
  specialize (Hdates (Forall_nil _)).
  destruct (sort_desc_strings _ Hdates) as [sorted Hsort].
  pose proof (main_outcome w Hkey) as H. rewrite Hfin, Hsort in H.
  injection H as Hf Hm. split; [exact Hm|].
  eexists. split; [exact Hf|]. cbn [jobs].
  eapply Permutation_Forall; [apply sort_desc_perm; exact Hsort|exact Hdates].
Qed.

Lemma well_formed_run_completes_witness :
  snd (main (page_world [sample_job "J1" "2024-05-10T02:00:00.000Z";
                         sample_job "J5" "yesterday"])) = Ok tt.
Proof.
  apply (well_formed_run_completes
           (page_world [sample_job "J1" "2024-05-10T02:00:00.000Z";
                        sample_job "J5" "yesterday"])).
  - reflexivity.
  - intros s _. right. right. eexists. split; [reflexivity|].
    repeat constructor; (eexists; split; [reflexivity|]);
      (split; [eexists; reflexivity|]);
      (split; [eexists; split; [reflexivity|]
              |split; [|split]]).
    + intros dt H. vm_compute in H. injection H as <-. discriminate.
    + right. exists 80000. split; [reflexivity | vm_compute; reflexivity].
    + right. exists 120000. split; [reflexivity | vm_compute; reflexivity].
    + right. now exists "".
    + intros dt H. vm_compute in H. discriminate.
    + right. exists 80000. split; [reflexivity | vm_compute; reflexivity].
    + right. exists 120000. split; [reflexivity | vm_compute; reflexivity].
    + right. now exists "".
Defined.

(** ** Meeting a listing again *)

Section Again.

#[local] Arguments salary_text : simpl never.
#[local] Arguments too_old : simpl never.
#[local] Arguments snippet : simpl never.

(** A listing that a step handled is skipped by every later step. *)
Lemma handled_is_skipped (c : Z) (st st' : acc) (e : entry) :
  process_job c st e = Ok st' ->
  forall st2,
    (forall x, set_mem x (seen_ids st') = true ->
               set_mem x (seen_ids st2) = true) ->
    process_job c st2 e = Ok st2.
Proof.
  destruct e as [job|]; [|discriminate].
  unfold process_job.
  destruct (truthy (get job "job_id" (VStr ""))) eqn:Hid; cbn [negb orb];
    [|reflexivity].
  intros H st2 Hsub.
  destruct (set_mem _ (seen_ids st2)) eqn:H2; [reflexivity|].
  destruct (set_mem _ (seen_ids st)) eqn:H1.
  - injection H as <-. rewrite (Hsub _ H1) in H2. discriminate.
  - destruct (too_old _ c) as [[|]|]; cbn [bind] in *;
      [reflexivity| |discriminate].
    destruct (salary_text job); cbn [bind] in H; [|discriminate].
    destruct (snippet _); cbn [bind] in H; [|discriminate].
    injection H as <-. cbn [seen_ids] in Hsub.
    rewrite Hsub in H2; [discriminate|].
    rewrite set_mem_add, py_eq_refl. reflexivity.
Qed.

Lemma seen_grows_page (c : Z) (l : list entry) :
  forall st st' x,
    process_results c st l = Ok st' ->
    set_mem x (seen_ids st) = true -> set_mem x (seen_ids st') = true.
Proof.
  induction l as [|e l IH]; simpl; intros st st' x H Hx.
  - now injection H as <-.
  - destruct (process_job c st e) as [st1|] eqn:E; simpl in H;
      [|discriminate].
    eapply IH; [exact H|]. eapply seen_grows_step; eassumption.
Qed.

Lemma page_is_skipped (c : Z) (l : list entry) :
  forall st st',
    process_results c st l = Ok st' ->
    forall e st2,
      In e l ->
      (forall x, set_mem x (seen_ids st') = true ->
                 set_mem x (seen_ids st2) = true) ->
      process_job c st2 e = Ok st2.
Proof.
  induction l as [|e0 l IH]; simpl; intros st st' H e st2 Hin Hsub;
    [destruct Hin|].
  destruct (process_job c st e0) as [st1|] eqn:E; simpl in H;
    [|discriminate].
  destruct Hin as [<-|Hin].
  - eapply handled_is_skipped; [exact E|].
    intros x Hx. apply Hsub. eapply seen_grows_page; eassumption.
  - eapply IH; eassumption.
Qed.

End Again.

(** X14. Meeting the same listings again changes nothing.  Once a page
    has been processed, processing any listings of that page again, at
    once or after other pages, from the same or another search, leaves
    the accumulators as they are: a page processed twice is a page
    processed once. *)
Theorem seen_page_adds_nothing
  (c : Z) (st st1 : acc) (page : list entry)
  (Hpage : process_results c st page = Ok st1) :
  process_results c st1 page = Ok st1 /\
  process_results c st (page ++ page) = Ok st1 /\
  (forall again,
      (forall e, In e again -> In e page) ->
      process_results c st1 again = Ok st1) /\
  (forall other st2 again,
      process_results c st1 other = Ok st2 ->
      (forall e, In e again -> In e page) ->
      process_results c st2 again = Ok st2).
Proof.
  assert (Hgen : forall st2 again,
    (forall x, set_mem x (seen_ids st1) = true ->
               set_mem x (seen_ids st2) = true) ->
    (forall e, In e again -> In e page) ->
    process_results c st2 again = Ok st2).
  { intros st2 again Hsub. induction again as [|e again IH]; intros Hin;
      [reflexivity|].
    cbn [process_results].
    rewrite (page_is_skipped c page st st1 Hpage e st2
               (Hin e (or_introl eq_refl)) Hsub).
    cbn [bind]. apply IH. intros e' He'. apply Hin. now right. }
  assert (H1 : process_results c st1 page = Ok st1)
    by (apply Hgen; auto).
  split; [exact H1|]. split; [|split].
  - now rewrite process_results_app, Hpage.
  - intros again Hin. apply Hgen; auto.
  - intros other st2 again Hother Hin. apply Hgen; [|exact Hin].
    intros x Hx. eapply seen_grows_page; eassumption.
Qed.

Lemma seen_page_adds_nothing_witness :
  process_results (cutoff_of sample_world) empty_acc
    (sample_page_remote ++ sample_page_remote) =
  process_results (cutoff_of sample_world) empty_acc sample_page_remote.
Proof.
  pose (st1 := match process_results (cutoff_of sample_world) empty_acc
                       sample_page_remote
               with Ok s => s | Raise _ => empty_acc end).
  assert (H : process_results (cutoff_of sample_world) empty_acc
                sample_page_remote = Ok st1) by (vm_compute; reflexivity).
  rewrite H.
  exact (proj1 (proj2 (seen_page_adds_nothing (cutoff_of sample_world)
                         empty_acc st1 sample_page_remote H))).
Defined.

(** ** The URL of a search *)

Section Url.

Lemma quote_char_safe (c : ascii) : forallb url_safe (quote_char c) = true.
Proof.
  destruct c as [[] [] [] [] [] [] [] []]; vm_compute; reflexivity.
Qed.

Lemma quote_plus_chars (s : string) :
  list_ascii_of_string (quote_plus s) =
  flat_map quote_char (list_ascii_of_string s).
Proof. unfold quote_plus. apply list_ascii_of_string_of_list_ascii. Qed.

Lemma quote_plus_safe (s : string) :
  forallb url_safe (list_ascii_of_string (quote_plus s)) = true.
Proof.
  rewrite quote_plus_chars.
  induction (list_ascii_of_string s) as [|c l IH]; [reflexivity|].
  simpl. now rewrite forallb_app, quote_char_safe, IH.
Qed.

Lemma occurrences_app (c : ascii) (a b : string) :
  occurrences c (a ++ b) = (occurrences c a + occurrences c b)%nat.
Proof.
  unfold occurrences.
  now rewrite list_ascii_of_string_app, filter_app, length_app.
Qed.

Lemma occurrences_quoted (c : ascii) (s : string) :
  url_safe c = false -> occurrences c (quote_plus s) = 0%nat.
Proof.
  intros Hc. unfold occurrences.
  pose proof (quote_plus_safe s) as Hs.
  induction (list_ascii_of_string (quote_plus s)) as [|x l IH];
    [reflexivity|].
  simpl in Hs. apply andb_true_iff in Hs as [Hx Hl]. simpl.
  destruct (Ascii.eqb_spec c x) as [->|_]; [congruence|].
  now apply IH.
Qed.

End Url.

(** X15. The URL of a search has the parameters the code names and no
    others, whatever the query and the location say: [quote_plus] leaves
    nothing but letters, digits and [_.-~+%] of them, so the texts cannot
    bring in a [&], [=], [?], [#] or a space.  The URL has one [?], four
    [&] for a remote search and five otherwise (the [location] parameter
    is sent only when the search is not remote), and it is the one the
    request of the search stands for. *)
Theorem url_parameters_are_fixed (w : world) (q loc : string) (rem : bool) :
  request_url (make_request w q loc rem) = build_url q loc rem /\
  forallb url_safe (list_ascii_of_string (quote_plus q)) = true /\
  occurrences "?" (build_url q loc rem) = 1%nat /\
  occurrences "&" (build_url q loc rem) = (if rem then 4 else 5)%nat /\
  occurrences "=" (build_url q loc rem) = (if rem then 5 else 6)%nat /\
  occurrences " " (build_url q loc rem) = 0%nat /\
  occurrences "#" (build_url q loc rem) = 0%nat /\
  (rem = true -> forall loc', build_url q loc' rem = build_url q loc rem).
Proof.
  split; [destruct rem; reflexivity|].
  split; [apply quote_plus_safe|].
  assert (Hcount : forall c, url_safe c = false ->
    occurrences c (build_url q loc rem) =
    (occurrences c (BASE_URL ++ "?query=")
     + occurrences c ("&page=1&num_pages=1" ++ "&date_posted=week"
                      ++ "&remote_jobs_only=")
     + occurrences c (if rem then "true" else "false")
     + (if rem then 0 else occurrences c "&location="))%nat).
  { intros c Hc. unfold build_url.
    destruct rem; cbn [negb];
      rewrite !occurrences_app, !(occurrences_quoted c _ Hc); lia. }
  repeat split.
  - rewrite Hcount by reflexivity. destruct rem; reflexivity.
  - rewrite Hcount by reflexivity. destruct rem; reflexivity.
  - rewrite Hcount by reflexivity. destruct rem; reflexivity.
  - rewrite Hcount by reflexivity. destruct rem; reflexivity.
  - rewrite Hcount by reflexivity. destruct rem; reflexivity.
  - intros -> loc'. reflexivity.
Qed.

Lemma url_parameters_are_fixed_witness :
  build_url "R&D lead #1" "New York, NY" false =
  ("https://jsearch.p.rapidapi.com/search?query=R%26D+lead+%231"
   ++ "&page=1&num_pages=1&date_posted=week&remote_jobs_only=false"
   ++ "&location=New+York%2C+NY")%string /\
  occurrences "&" (build_url "R&D lead #1" "New York, NY" false) = 5%nat.
Proof.
  split; [reflexivity|].
  exact (proj1 (proj2 (proj2 (proj2
    (url_parameters_are_fixed sample_world "R&D lead #1" "New York, NY"
                              false))))).
Defined.

(** ** The dedup set and the accepted listings *)

(** X16. The dedup set holds the identifiers of the accepted listings and
    nothing else: throughout the run, a value is in [seen_ids] exactly
    when it is the [id] of a listing in [all_jobs], the set has as many
    elements as there are accepted listings, and none of them twice. *)
Theorem seen_ids_are_accepted_ids (w : world) (fin : acc)
  (Hfin : snd (for_searches w (cutoff_of w) empty_acc SEARCHES) = Ok fin) :
  (forall x, In x (seen_ids fin) <-> In x (map id (all_jobs fin))) /\
  List.length (seen_ids fin) = List.length (all_jobs fin) /\
  NoDup (seen_ids fin) /\
  (forall x, set_mem x (seen_ids fin) = true <->
             exists j, In j (all_jobs fin) /\ py_eq x (id j) = true).
Proof.
  assert (Hinv :
    (forall x, In x (seen_ids fin) <-> In x (map id (all_jobs fin))) /\
    List.length (seen_ids fin) = List.length (all_jobs fin) /\
    NoDup (seen_ids fin)).
  { revert Hfin.
    apply (for_searches_inv
      (fun st =>
         (forall x, In x (seen_ids st) <-> In x (map id (all_jobs st))) /\
         List.length (seen_ids st) = List.length (all_jobs st) /\
         NoDup (seen_ids st))).
    - intros st e st' (Hin & Hlen & Hnd) H.
      apply process_job_Ok in H
        as [->|(job & j & _ & -> & _ & _ & _ & _ & Hnew & _)];
        [exact (conj Hin (conj Hlen Hnd))|].
      unfold set_add. rewrite Hnew. cbn [all_jobs seen_ids].
      split; [|split].
      + intros x. rewrite map_app, in_app_iff. simpl. rewrite Hin. tauto.
      + rewrite length_app. simpl. lia.
      + constructor; [|exact Hnd]. intros Hj.
        assert (set_mem (id j) (seen_ids st) = true); [|congruence].
        apply existsb_exists. exists (id j). split; [exact Hj|].
        apply py_eq_refl.
    - repeat split; simpl; try tauto. constructor. }
  destruct Hinv as (Hin & Hlen & Hnd).
  repeat split; try assumption; try apply Hin.
  - intros H. apply existsb_exists in H as (y & Hy & Heq).
    apply Hin, in_map_iff in Hy as (j & <- & Hj). now exists j.
  - intros (j & Hj & Heq). apply existsb_exists. exists (id j).
    split; [|exact Heq]. apply Hin, in_map. exact Hj.
Qed.

Lemma seen_ids_are_accepted_ids_witness :
  let fin := match snd (for_searches sample_world (cutoff_of sample_world)
                          empty_acc SEARCHES)
             with Ok st => st | Raise _ => empty_acc end in
  List.length (seen_ids fin) = 5%nat /\
  List.length (seen_ids fin) = List.length (all_jobs fin).
Proof.
  intros fin. split; [vm_compute; reflexivity|].
  apply (seen_ids_are_accepted_ids sample_world fin).
  vm_compute. reflexivity.
Defined.

(** ** Reading the URL back *)

Section UrlBack.

Lemma unquote_quote_char (c : ascii) (rest : list ascii) :
  unquote_bytes (quote_char c ++ rest) = utf8_bytes c ++ unquote_bytes rest.
Proof. destruct c as [[] [] [] [] [] [] [] []]; reflexivity. Qed.

Lemma utf8_decode_bytes (c : ascii) (bs : list N) :
  utf8_decode (utf8_bytes c ++ bs) = c :: utf8_decode bs.
Proof. destruct c as [[] [] [] [] [] [] [] []]; reflexivity. Qed.

Lemma unquote_quote_chars (l : list ascii) :
  utf8_decode (unquote_bytes (flat_map quote_char l)) = l.
Proof.
  assert (H : unquote_bytes (flat_map quote_char l) = flat_map utf8_bytes l).
  { induction l as [|c l IH]; [reflexivity|]. cbn [flat_map].
    now rewrite unquote_quote_char, IH. }
  rewrite H. clear H.
  induction l as [|c l IH]; [reflexivity|]. cbn [flat_map].
  now rewrite utf8_decode_bytes, IH.
Qed.

Lemma unquote_quote_plus (s : string) : unquote_plus (quote_plus s) = s.
Proof.
  unfold unquote_plus. rewrite quote_plus_chars, unquote_quote_chars.
  apply string_of_list_ascii_of_string.
Qed.

Lemma quote_plus_inj (a b : string) : quote_plus a = quote_plus b -> a = b.
Proof.
  intros H. apply (f_equal unquote_plus) in H.
  now rewrite !unquote_quote_plus in H.
Qed.

Lemma append_assoc (a b c : string) :
  ((a ++ b) ++ c)%string = (a ++ (b ++ c))%string.
Proof. induction a as [|x a IH]; simpl; congruence. Qed.

Lemma append_inv_head (a x y : string) :
  (a ++ x)%string = (a ++ y)%string -> x = y.
Proof. induction a as [|c a IH]; simpl; [auto|]. intros H. injection H. auto. Qed.

Lemma occurrences_cons (c d : ascii) (s : string) :
  occurrences c (String d s) =
  ((if Ascii.eqb c d then 1 else 0) + occurrences c s)%nat.
Proof.
  unfold occurrences. cbn [list_ascii_of_string filter].
  destruct (Ascii.eqb c d); reflexivity.
Qed.

(** Two texts free of [&], each followed by a text that begins with
    [&]: equal wholes have equal parts. *)
Lemma split_at_ampersand (x x' y y' : string) :
  occurrences "&" x = 0%nat -> occurrences "&" x' = 0%nat ->
  (x ++ String "&" y)%string = (x' ++ String "&" y')%string ->
  x = x' /\ y = y'.
Proof.
  revert x'. induction x as [|c x IH]; intros [|c' x'];
    rewrite ?occurrences_cons; cbn [append]; intros H0 H0' H.
  - injection H as <-. now split.
  - injection H as <- _. rewrite Ascii.eqb_refl in H0'. discriminate.
  - injection H as -> _. rewrite Ascii.eqb_refl in H0. discriminate.
  - injection H as -> H.
    destruct (Ascii.eqb "&" c'); [discriminate|].
    destruct (IH x' H0 H0' H) as [-> ->]. now split.
Qed.

End UrlBack.

(** X17. The URL can be read back.  [unquote_plus], applied to what
    [quote_plus] made of a text, returns the text, so different queries
    give different parameters; and the URL of a search determines the
    search: two URLs are equal only for the same query, the same remote
    flag and, when the search is not remote, the same location. *)
Theorem url_determines_search
  (q loc q' loc' : string) (rem rem' : bool)
  (Hurl : build_url q loc rem = build_url q' loc' rem') :
  q = q' /\ rem = rem' /\ (rem = false -> loc = loc') /\
  unquote_plus (quote_plus q) = q /\
  unquote_plus (quote_plus loc) = loc.
Proof.
  assert (Hq : q = q' /\ rem = rem' /\ (rem = false -> loc = loc')).
  { unfold build_url in Hurl.
    assert (Hamp : url_safe "&" = false) by reflexivity.
    destruct rem, rem'; cbn [negb] in Hurl;
      repeat rewrite append_assoc in Hurl;
      apply append_inv_head in Hurl;
      apply append_inv_head in Hurl;
      apply (split_at_ampersand (quote_plus q) (quote_plus q'))
        in Hurl as [Hq Hrest];
      try apply (occurrences_quoted _ _ Hamp);
      apply quote_plus_inj in Hq; subst q'.
    - repeat split; congruence.
    - simpl in Hrest. discriminate Hrest.
    - simpl in Hrest. discriminate Hrest.
    - repeat split. intros _.
      apply (append_inv_head
               "page=1&num_pages=1&date_posted=week&remote_jobs_only=false&location=")
        in Hrest.
      now apply quote_plus_inj. }
  destruct Hq as (H1 & H2 & H3).
  repeat split; try assumption; apply unquote_quote_plus.
Qed.

Lemma url_determines_search_witness :
  unquote_plus (quote_plus "R&D lead #1") = "R&D lead #1".
Proof.
  exact (proj1 (proj2 (proj2 (proj2
    (url_determines_search "R&D lead #1" "New York, NY"
                           "R&D lead #1" "Newark, NJ" true true
                           eq_refl))))).
Defined.

(** ** The credential and the console *)

Section Console.

#[local] Arguments process_search : simpl never.

Lemma for_searches_first_request (w : world) (c : Z) (st : acc)
  (s : search) (l : list search) :
  existsb is_request (fst (for_searches w c st (s :: l))) = true.
Proof.
  cbn [for_searches]. rewrite fst_io_bind, existsb_app.
  apply orb_true_iff. left.
  unfold process_search. rewrite fst_io_bind. cbn [emit fst snd app].
  rewrite fst_io_bind. unfold fetch_jobs_for_query at 1.
  rewrite fst_io_bind. reflexivity.
Qed.

Lemma filter_none (t : list event) :
  existsb is_write t = false -> filter is_write t = [].
Proof.
  induction t as [|e t IH]; simpl; [reflexivity|].
  destruct (is_write e); simpl; [discriminate | exact IH].
Qed.

End Console.

(** X18. The credential is tested for emptiness: a key that is set to the
    empty text stops the run the way a missing key does, without a
    request, and any other key lets the run go on to its first request
    at least.  Requests are sent exactly when the key is not empty. *)
Theorem requests_iff_key_not_empty (w : world) :
  existsb is_request (fst (main w)) = truthy (VStr (API_KEY w)) /\
  (truthy (VStr (API_KEY w)) = false <->
   RAPIDAPI_KEY w = None \/ RAPIDAPI_KEY w = Some "") /\
  (RAPIDAPI_KEY w = Some "" ->
   main w = ([Print MsgNoKey], Raise (SystemExit 1))).
Proof.
  split; [|split].
  - destruct (truthy (VStr (API_KEY w))) eqn:Hk.
    + rewrite (main_trace w Hk), existsb_app.
      unfold SEARCHES. now rewrite for_searches_first_request.
    + unfold main. rewrite Hk. reflexivity.
  - unfold API_KEY. destruct (RAPIDAPI_KEY w) as [k|]; simpl.
    + rewrite negb_false_iff, String.eqb_eq. split.
      * intros ->. now right.
      * intros [H|H]; congruence.
    + split; auto.
  - intros H. unfold main, API_KEY. rewrite H. reflexivity.
Qed.

Lemma requests_iff_key_not_empty_witness :
  existsb is_request (fst (main keyless_world)) = false /\
  existsb is_request (fst (main garbled_world)) = true.
Proof.
  split.
  - exact (proj1 (requests_iff_key_not_empty keyless_world)).
  - exact (proj1 (requests_iff_key_not_empty garbled_world)).
Defined.

(** X19. What the run prints and writes at its end.  A run that
    completes has written exactly one file, named [jobs.json], as its
    last act but one, and its last line reports the number of jobs in
    that file; a run writes at most one file. *)
Theorem run_ends_with_write_and_count (w : world) :
  (List.length (filter is_write (fst (main w))) <= 1)%nat /\
  (forall o,
      file_written w = Some o ->
      exists before,
        fst (main w) =
          before ++ [WriteFile "jobs.json" o; Print (MsgDone (job_count o))]
        /\ existsb is_write before = false).
Proof.
  destruct (truthy (VStr (API_KEY w))) eqn:Hk.
  - pose proof (main_trace w Hk) as Ht.
    pose proof (main_outcome w Hk) as Ho.
    pose proof (for_searches_no_write w (cutoff_of w) SEARCHES empty_acc)
      as Hn.
    rewrite Ht, filter_app, (filter_none _ Hn).
    destruct (snd (for_searches w (cutoff_of w) empty_acc SEARCHES))
      as [st|e]; [destruct (sort_desc (all_jobs st)) as [sorted|e]|].
    + split; [simpl; lia|].
      intros o H. injection Ho as Ho _. rewrite H in Ho.
      injection Ho as ->. eexists. split; [reflexivity | exact Hn].
    + split; [simpl; lia|].
      intros o H. injection Ho as Ho _. congruence.
    + split; [simpl; lia|].
      intros o H. injection Ho as Ho _. congruence.
  - unfold file_written, main. rewrite Hk. simpl.
    split; [lia | discriminate].
Qed.

Lemma run_ends_with_write_and_count_witness :
  exists before,
    fst (main sample_world) =
      before ++ [WriteFile "jobs.json" sample_output; Print (MsgDone 5)]
    /\ existsb is_write before = false.
Proof.
  apply (proj2 (run_ends_with_write_and_count sample_world) sample_output).
  vm_compute. reflexivity.
Defined.

(** ** A search that fails *)

Section Failed.

#[local] Arguments process_results : simpl never.

Lemma fetch_caught (w : world) (q loc : string) (rem : bool) (e : exn) :
  urlopen w (make_request w q loc rem) = Fails e ->
  caught e = true ->
  fetch_jobs_for_query w q loc rem =
  ([UrlOpen (make_request w q loc rem); Print (failure_message q rem e)],
   Ok (PList [])).
Proof.
  intros H Hc. unfold fetch_jobs_for_query. rewrite H.
  destruct e; try discriminate; reflexivity.
Qed.

Lemma process_search_caught (w : world) (c : Z) (st : acc) (s : search)
  (e : exn) :
  urlopen w (request_of w s) = Fails e ->
  caught e = true ->
  process_search w c st s = (failed_search_trace w s e, Ok st).
Proof.
  intros H Hc. unfold process_search.
  rewrite (fetch_caught w _ _ _ e H Hc). reflexivity.
Qed.

Lemma for_searches_app (w : world) (c : Z) (a b : list search) :
  forall st st1,
    snd (for_searches w c st a) = Ok st1 ->
    for_searches w c st (a ++ b) =
    (fst (for_searches w c st a) ++ fst (for_searches w c st1 b),
     snd (for_searches w c st1 b)).
Proof.
  induction a as [|s a IH]; intros st st1 H.
  - simpl in H. injection H as <-. simpl.
    now destruct (for_searches w c st b).
  - rewrite snd_for_searches_cons in H. cbn [for_searches app].
    destruct (process_search w c st s) as [t [st2|e]]; cbn [snd bind] in H;
      [|discriminate].
    unfold io_bind at 1. cbn [fst snd].
    rewrite (IH st2 st1 H).
    unfold io_bind at 1. cbn [fst snd].
    destruct (for_searches w c st2 a) as [t2 r2]. cbn [snd] in H. subst r2.
    cbn [fst snd]. now rewrite app_assoc.
Qed.

Lemma raw_listings_app (w : world) (a b : list search) :
  raw_listings w (a ++ b) =
  (x <- raw_listings w a ;; y <- raw_listings w b ;; Ok (x ++ y)).
Proof.
  induction a as [|s a IH]; cbn [raw_listings app bind].
  - destruct (raw_listings w b); reflexivity.
  - destruct (snd (fetch_jobs_for_query _ _ _ _)) as [p|]; cbn [bind];
      [|reflexivity].
    destruct (py_len p); cbn [bind]; [|reflexivity].
    destruct (iterate p) as [page|]; cbn [bind]; [|reflexivity].
    rewrite IH.
    destruct (raw_listings w a); cbn [bind]; [|reflexivity].
    destruct (raw_listings w b); cbn [bind]; [|reflexivity].
    now rewrite app_assoc.
Qed.

(** The loop is one pass over the pages the searches return. *)
Lemma for_searches_of_raw (w : world) (c : Z) (l : list search) :
  forall st raw,
    raw_listings w l = Ok raw ->
    snd (for_searches w c st l) = process_results c st raw.
Proof.
  induction l as [|s l IH]; intros st raw H.
  - simpl in H. injection H as <-. reflexivity.
  - rewrite snd_for_searches_cons, snd_process_search.
    cbn [raw_listings] in H.
    destruct (snd (fetch_jobs_for_query _ _ _ _)) as [p|]; cbn [bind] in *;
      [|discriminate].
    destruct (py_len p); cbn [bind] in *; [|discriminate].
    destruct (iterate p) as [page|]; cbn [bind] in *; [|discriminate].
    destruct (raw_listings w l) as [rest|]; cbn [bind] in H; [|discriminate].
    injection H as <-. rewrite process_results_app.
    destruct (process_results c st page) as [st1|]; cbn [bind];
      [|reflexivity].
    now apply IH.
Qed.

End Failed.

(** C7. When the request of a search ends in an exception one of the two
    handlers catches (an [HTTPError] for a non-2xx answer; [URLError],
    [TimeoutError] or [OSError] for a failure of the transport), the
    fetch returns the empty sequence, the search leaves the accumulators
    as they were and the loop goes on: the run writes the very file, and
    ends the very way, of the run in which that request is answered with
    an empty page.  When every search fails so, the run still writes its
    file, with no jobs.

    The search itself prints its label, sends its request, prints the
    line of the handler and a count of zero, and sleeps.  Wherever it
    stands in the list, the searches before it and after it run as they
    would without it, those after it from the accumulators those before
    it left, and it adds no raw listing to the run.  With a credential,
    once the searches have returned their pages the run ends as the pass
    over these pages and the sort end: when neither raises the file is
    written with the sorted listings and their count, and every search
    has been requested. *)
Theorem failed_search_yields_no_results (w : world) (s : search) (e : exn)
  (Hfail : urlopen w (request_of w s) = Fails e)
  (Hcaught : caught e = true) :
  snd (fetch_jobs_for_query w (query s) (location s) (remote s))
  = Ok (PList []) /\
  (forall c st, snd (process_search w c st s) = Ok st) /\
  file_written w = file_written (with_empty_page w (request_of w s)) /\
  snd (main w) = snd (main (with_empty_page w (request_of w s))) /\
  (truthy (VStr (API_KEY w)) = true ->
   (forall s', In s' SEARCHES ->
      exists e', urlopen w (request_of w s') = Fails e' /\
                 caught e' = true) ->
   snd (main w) = Ok tt /\
   file_written w = Some {| last_updated := clock_end w;
                            job_count := 0; jobs := [] |}) /\
  (forall c st,
     process_search w c st s = (failed_search_trace w s e, Ok st)) /\
  (forall c st st1 before after,
     snd (for_searches w c st before) = Ok st1 ->
     for_searches w c st (before ++ s :: after) =
     (fst (for_searches w c st before) ++ failed_search_trace w s e
      ++ fst (for_searches w c st1 after),
      snd (for_searches w c st1 after))) /\
  (forall before after,
     raw_listings w (before ++ s :: after) =
     raw_listings w (before ++ after)) /\
  (truthy (VStr (API_KEY w)) = true ->
   forall raw,
     raw_listings w SEARCHES = Ok raw ->
     (file_written w, snd (main w)) =
     match process_results (cutoff_of w) empty_acc raw with
     | Ok fin =>
       match sort_desc (all_jobs fin) with
       | Ok sorted =>
         (Some {| last_updated := clock_end w;
                  job_count := List.length sorted;
                  jobs := sorted |}, Ok tt)
       | Raise e' => (None, Raise e')
       end
     | Raise e' => (None, Raise e')
     end) /\
  (snd (main w) = Ok tt ->
   filter is_paced (fst (main w)) = schedule w SEARCHES).
Proof.
  assert (Hfetch : forall s' e',
    urlopen w (request_of w s') = Fails e' -> caught e' = true ->
    snd (fetch_jobs_for_query w (query s') (location s') (remote s'))
    = Ok (PList [])).
  { intros s' e' H1 H2. rewrite snd_fetch. unfold request_of in H1.
    now rewrite H1, H2. }
  assert (Hsearch : forall s' e' c st,
    urlopen w (request_of w s') = Fails e' -> caught e' = true ->
    snd (process_search w c st s') = Ok st).
  { intros s' e' c st H1 H2.
    now rewrite snd_process_search, (Hfetch s' e' H1 H2). }
  split; [now apply (Hfetch s e)|].
  split; [intros c st; now apply (Hsearch s e)|].
  apply and_assoc. split.
  { apply main_ext; try reflexivity.
    intros s'. rewrite !snd_fetch.
    fold (request_of w s') (request_of (with_empty_page w (request_of w s)) s').
    rewrite (request_of_key w (with_empty_page w (request_of w s)) s' eq_refl).
    cbn [urlopen with_empty_page].
    destruct (request_eqb (request_of w s') (request_of w s)) eqn:E.
    + apply request_eqb_eq in E. rewrite E, Hfail, Hcaught. reflexivity.
    + reflexivity. }
  split.
  { intros Hk Hall.
    pose proof (main_outcome w Hk) as H.
    assert (Hloop : forall l st,
      (forall s', In s' l -> In s' SEARCHES) ->
      snd (for_searches w (cutoff_of w) st l) = Ok st).
    { induction l as [|s' l IH]; intros st Hl; [reflexivity|].
      rewrite snd_for_searches_cons.
      destruct (Hall s' (Hl s' (or_introl eq_refl))) as (e' & H1 & H2).
      rewrite (Hsearch s' e' _ st H1 H2). cbn [bind].
      apply IH. intros s'' Hs''. apply Hl. now right. }
    rewrite (Hloop SEARCHES empty_acc (fun _ h => h)) in H.
    simpl in H. now inversion H. }
  split; [intros c st; now apply process_search_caught|].
  split.
  { intros c st st1 before after Hb.
    rewrite (for_searches_app w c before (s :: after) st st1 Hb).
    cbn [for_searches].
    rewrite (process_search_caught w c st1 s e Hfail Hcaught).
    unfold io_bind. cbn [fst snd].
    now destruct (for_searches w c st1 after). }
  split.
  { intros before after. rewrite !raw_listings_app.
    destruct (raw_listings w before) as [x|]; cbn [bind]; [|reflexivity].
    cbn [raw_listings]. rewrite (Hfetch s e Hfail Hcaught).
    cbn [bind py_len iterate List.length app].
    now destruct (raw_listings w after). }
  split.
  { intros Hk raw Hraw.
    rewrite (main_outcome w Hk).
    now rewrite (for_searches_of_raw w (cutoff_of w) SEARCHES empty_acc raw
                   Hraw). }
  intros Hm.
  destruct (truthy (VStr (API_KEY w))) eqn:Hk.
  - rewrite (main_trace w Hk), filter_app.
    pose proof (main_outcome w Hk) as Ho.
    destruct (for_searches_paced w (cutoff_of w) SEARCHES empty_acc)
      as [_ He].
    destruct (snd (for_searches _ _ _ _)) as [st|e'].
    + rewrite (He _ eq_refl).
      destruct (sort_desc (all_jobs st)); cbn [filter is_paced];
        now rewrite app_nil_r.
    + rewrite Hm in Ho. now inversion Ho.
  - unfold main in Hm. rewrite Hk in Hm. discriminate.
Qed.

Lemma failed_search_yields_no_results_witness :
  let s := {| query := "marketing director women's health";
              location := "New York, NY"; remote := false |} in
  let e := HTTPError 429 "Too Many Requests" in
  process_search sample_world (cutoff_of sample_world) empty_acc s
  = ([Print (MsgFetching "marketing director women's health (New York, NY)");
      UrlOpen (request_of sample_world s);
      Print (MsgHTTP 429 "marketing director women's health" false
               "Too Many Requests");
      Print (MsgFound 0);
      Sleep 2], Ok empty_acc) /\
  file_written sample_world =
  file_written (with_empty_page sample_world (request_of sample_world s)) /\
  for_searches sample_world (cutoff_of sample_world) empty_acc SEARCHES =
  (failed_search_trace sample_world s e
   ++ fst (for_searches sample_world (cutoff_of sample_world) empty_acc
             (tl SEARCHES)),
   snd (for_searches sample_world (cutoff_of sample_world) empty_acc
          (tl SEARCHES))) /\
  file_written sample_world = Some sample_output /\
  job_count sample_output = 5%nat /\
  snd (main sample_world) = Ok tt /\
  filter is_paced (fst (main sample_world)) = schedule sample_world SEARCHES.
Proof.
  intros s e.
  destruct (failed_search_yields_no_results sample_world s e
              eq_refl eq_refl)
    as (_ & _ & Hfile & _ & _ & Htrace & Hloop & _ & Hout & Hsched).
  pose (raw := match raw_listings sample_world SEARCHES with
               | Ok r => r
               | Raise _ => []
               end).
  assert (Hraw : raw_listings sample_world SEARCHES = Ok raw)
    by (vm_compute; reflexivity).
  specialize (Hout eq_refl raw Hraw).
  assert (Hpair : (file_written sample_world, snd (main sample_world))
                  = (Some sample_output, Ok tt)).
  { rewrite Hout. vm_compute. reflexivity. }
  pose proof (f_equal fst Hpair) as Hf.
  pose proof (f_equal snd Hpair) as Hm.
  cbn [fst snd] in Hf, Hm.
  split; [exact (Htrace (cutoff_of sample_world) empty_acc)|].
  split; [exact Hfile|].
  split; [exact (Hloop (cutoff_of sample_world) empty_acc empty_acc []
                   (tl SEARCHES) eq_refl)|].
  split; [exact Hf|].
  split; [reflexivity|].
  split; [exact Hm|].
  exact (Hsched Hm).
Defined.
